(** * ChapChap package tracking: status registry, lifecycle store,
      transition engine, dispute sub-flow and notification fan-out.

    Shallow embedding of [services/trackingService.js] (the
    [TrackingService] class with its constant tables), of the part of
    [services/socketService.js] it calls, of the tables of
    [config/database.js] it reads and writes, and of what the handlers
    [GET /status-options] and [GET /packages/active] of [routes/tracking.js]
    compute. *)

From Stdlib Require Import ZArith Lia.
From stdpp Require Import gmap strings list fin_maps sorting.

Open Scope string_scope.
Open Scope list_scope.
Open Scope Z_scope.

(** ** JavaScript values and exceptions *)

(** The values a status column or argument can hold on the JavaScript
    side: [undefined], [null] (an SQL NULL read through pg) or a string. *)
Inductive jsval :=
| JUndefined
| JNull
| JString (s : string).

(** JavaScript truthiness, as tested by [!currentStatus]. *)
Definition truthy (v : jsval) : bool :=
  match v with
  | JString s => negb (String.eqb s "")
  | JUndefined | JNull => false
  end.

(** A nullable text column read as a JavaScript value. *)
Definition of_column (c : option string) : jsval :=
  match c with
  | Some s => JString s
  | None => JNull
  end.

(** The exceptions the service raises or lets through.  The messages are
    those of the [Error] objects of the source. *)
Inductive error :=
| ColisNonTrouve                       (* 'Colis non trouvé' *)
| TransitionNonAutorisee (currentStatus : jsval) (newStatus : string)
                                       (* 'Transition non autorisée de .. vers ..' *)
| PermissionInsuffisante               (* 'Permission insuffisante pour cette action' *)
| AccesNonAutorise                     (* 'Accès non autorisé à ce colis' *)
| TypeError                            (* raised by the JavaScript run time *)
| QueryError                           (* raised by [client.query] *)
| EmitError.                           (* raised by a Socket.IO [emit] *)

(** The error kinds of the specification (section 7), and one more for
    the exceptions of the JavaScript run time. *)
Inductive error_kind :=
| NotFound
| InvalidTransition
| PermissionDenied
| Conflict
| PersistenceFailure
| NotificationFailure
| RuntimeFailure.

Definition kind_of (e : error) : error_kind :=
  match e with
  | ColisNonTrouve => NotFound
  | TransitionNonAutorisee _ _ => InvalidTransition
  | PermissionInsuffisante | AccesNonAutorise => PermissionDenied
  | QueryError => PersistenceFailure
  | EmitError => NotificationFailure
  | TypeError => RuntimeFailure
  end.

(** Outcome of a call: a returned value or a thrown exception. *)
Inductive result (A : Type) :=
| Ok (a : A)
| Throw (e : error).
Arguments Ok {A} a.
Arguments Throw {A} e.

Definition succeeded {A} (r : result A) : bool :=
  match r with
  | Ok _ => true
  | Throw _ => false
  end.

(** ** Status registry *)

Inductive status_name :=
| REQUESTED
| ACCEPTED
| PICKED_UP
| IN_TRANSIT
| ARRIVED
| DELIVERED
| DISPUTED.

Global Instance status_name_eq_dec : EqDecision status_name.
Proof. solve_decision. Defined.

(** [PACKAGE_STATUS.K]: the token stored for each status. *)
Definition PACKAGE_STATUS (k : status_name) : string :=
  match k with
  | REQUESTED => "requested"
  | ACCEPTED => "accepted"
  | PICKED_UP => "picked_up"
  | IN_TRANSIT => "in_transit"
  | ARRIVED => "arrived"
  | DELIVERED => "delivered"
  | DISPUTED => "disputed"
  end.

(** [ALLOWED_TRANSITIONS]: an object literal keyed by status token. *)
Definition ALLOWED_TRANSITIONS : gmap string (list string) :=
  list_to_map
    [ (PACKAGE_STATUS REQUESTED, [PACKAGE_STATUS ACCEPTED; PACKAGE_STATUS DISPUTED]);
      (PACKAGE_STATUS ACCEPTED, [PACKAGE_STATUS PICKED_UP; PACKAGE_STATUS DISPUTED]);
      (PACKAGE_STATUS PICKED_UP, [PACKAGE_STATUS IN_TRANSIT; PACKAGE_STATUS DISPUTED]);
      (PACKAGE_STATUS IN_TRANSIT, [PACKAGE_STATUS ARRIVED; PACKAGE_STATUS DISPUTED]);
      (PACKAGE_STATUS ARRIVED, [PACKAGE_STATUS DELIVERED; PACKAGE_STATUS DISPUTED]);
      (PACKAGE_STATUS DELIVERED, [PACKAGE_STATUS DISPUTED]);
      (PACKAGE_STATUS DISPUTED, []) ].

(** Property names every object literal inherits from [Object.prototype]. *)
Definition Object_prototype_keys : list string :=
  [ "constructor"; "__defineGetter__"; "__defineSetter__"; "hasOwnProperty";
    "__lookupGetter__"; "__lookupSetter__"; "isPrototypeOf";
    "propertyIsEnumerable"; "toString"; "valueOf"; "__proto__";
    "toLocaleString" ].

(** What [obj[key]] evaluates to on an object literal: an own property, an
    inherited member (a function or [Object.prototype] itself, which is
    neither nullish nor carries the fields of an own value), or
    [undefined]. *)
Inductive property (A : Type) :=
| Own (a : A)
| Inherited
| Undefined.
Arguments Own {A} a.
Arguments Inherited {A}.
Arguments Undefined {A}.

Definition get_property {A} (obj : gmap string A) (key : string) : property A :=
  match obj !! key with
  | Some a => Own a
  | None => if bool_decide (key ∈ Object_prototype_keys) then Inherited else Undefined
  end.

(** [Array.prototype.includes] on strings. *)
Definition includes (l : list string) (x : string) : bool := bool_decide (x ∈ l).

(** [isTransitionAllowed(currentStatus, newStatus)]:
    [if (!currentStatus) return newStatus === PACKAGE_STATUS.REQUESTED;
     return ALLOWED_TRANSITIONS[currentStatus]?.includes(newStatus) || false;]
    On an inherited member [?.] does not short-circuit and the call of the
    missing [includes] raises a [TypeError]. *)
Definition isTransitionAllowed (currentStatus : jsval) (newStatus : string) : result bool :=
  if negb (truthy currentStatus) then
    Ok (bool_decide (newStatus = PACKAGE_STATUS REQUESTED))
  else
    match currentStatus with
    | JString s =>
        match get_property ALLOWED_TRANSITIONS s with
        | Own l => Ok (includes l newStatus || false)
        | Inherited => Throw TypeError
        | Undefined => Ok false
        end
    | JUndefined | JNull => Ok false
    end.

(** [availableStatuses] of the [status-options] route, the registry's
    [allowedNextStates]:
    [if (currentStatus && ALLOWED_TRANSITIONS[currentStatus])
       availableStatuses = ALLOWED_TRANSITIONS[currentStatus].map(...)],
    and the empty array otherwise.  An inherited member is truthy and has
    no [map]. *)
Definition availableStatuses (currentStatus : jsval) : result (list string) :=
  match currentStatus with
  | JString s =>
      if truthy currentStatus then
        match get_property ALLOWED_TRANSITIONS s with
        | Own l => Ok l
        | Inherited => Throw TypeError
        | Undefined => Ok []
        end
      else Ok []
  | JUndefined | JNull => Ok []
  end.

(** The row [packageData] that [updatePackageStatus] reads: the columns of
    [packages] and the [traveler_id] of the joined trip that the service
    looks at. *)
Record package_data := {
  pd_id : Z;
  pd_sender_id : option Z;
  pd_traveler_id : option Z;
  pd_title : string;
  pd_status : option string
}.

(** [hasPermissionToUpdate(packageData, userId, newStatus)]: a [switch] on
    [newStatus] with strict equality against the tokens. *)
Definition hasPermissionToUpdate (packageData : package_data) (userId : Z)
    (newStatus : string) : bool :=
  let isOwner := bool_decide (pd_sender_id packageData = Some userId) in
  let isTraveler := bool_decide (pd_traveler_id packageData = Some userId) in
  if bool_decide (newStatus = PACKAGE_STATUS ACCEPTED) then isTraveler
  else if bool_decide (newStatus = PACKAGE_STATUS PICKED_UP) then isTraveler
  else if bool_decide (newStatus = PACKAGE_STATUS IN_TRANSIT) then isTraveler
  else if bool_decide (newStatus = PACKAGE_STATUS ARRIVED) then isTraveler
  else if bool_decide (newStatus = PACKAGE_STATUS DELIVERED) then isOwner
  else if bool_decide (newStatus = PACKAGE_STATUS DISPUTED) then isOwner || isTraveler
  else false.

(** [STATUS_MESSAGES]: icon, title and description per status token. *)
Record status_message := {
  icon : string;
  title : string;
  description : string
}.

Definition STATUS_MESSAGES : gmap string status_message :=
  list_to_map
    [ (PACKAGE_STATUS REQUESTED,
        {| icon := "📥"; title := "Colis demandé";
           description := "Votre demande de transport a été créée" |});
      (PACKAGE_STATUS ACCEPTED,
        {| icon := "✅"; title := "Colis accepté";
           description := "Un voyageur a accepté de transporter votre colis" |});
      (PACKAGE_STATUS PICKED_UP,
        {| icon := "📦"; title := "Colis pris en charge";
           description := "Le voyageur a récupéré votre colis" |});
      (PACKAGE_STATUS IN_TRANSIT,
        {| icon := "🚚"; title := "Colis en transit";
           description := "Votre colis est en cours de transport" |});
      (PACKAGE_STATUS ARRIVED,
        {| icon := "📍"; title := "Colis arrivé";
           description := "Votre colis est arrivé à destination" |});
      (PACKAGE_STATUS DELIVERED,
        {| icon := "✔️"; title := "Colis livré";
           description := "Votre colis a été livré avec succès" |});
      (PACKAGE_STATUS DISPUTED,
        {| icon := "⚠️"; title := "Litige déclaré";
           description := "Un problème a été signalé pour ce colis" |}) ].

(** The transition graph in the words of the specification (section 4.1),
    to compare [ALLOWED_TRANSITIONS] with. *)
Definition transition_graph (current : status_name) : list status_name :=
  match current with
  | REQUESTED => [ACCEPTED; DISPUTED]
  | ACCEPTED => [PICKED_UP; DISPUTED]
  | PICKED_UP => [IN_TRANSIT; DISPUTED]
  | IN_TRANSIT => [ARRIVED; DISPUTED]
  | ARRIVED => [DELIVERED; DISPUTED]
  | DELIVERED => [DISPUTED]
  | DISPUTED => []
  end.

(** ** Lifecycle store *)

(** The tables of [initializeTables] the service touches, with the columns
    it reads or writes.  Time stamps are points on one time line, counted
    in the smallest unit stored. *)
Record user_row := {
  first_name : string;
  last_name : string
}.

Record trip_row := {
  t_traveler_id : option Z
}.

Record package_row := {
  p_sender_id : option Z;
  p_trip_id : option Z;
  p_title : string;
  p_status : option string;
  p_updated_at : Z
}.

Record tracking_row := {
  pt_id : Z;
  pt_package_id : Z;
  pt_status : string;
  pt_user_id : Z;
  pt_notes : option string;
  pt_location : option string;
  pt_photo_path : option string;
  pt_created_at : Z
}.

Record dispute_row := {
  d_id : Z;
  d_package_id : Z;
  d_reporter_id : Z;
  d_reason : string;
  d_description : string;
  d_evidence_photos : list string;
  d_status : string;
  d_created_at : Z
}.

(** Committed contents of the database.  The three keyed tables are maps
    from primary key to row; the two append-only tables keep their rows in
    insertion order, next to the SERIAL sequence that numbers them. *)
Record database := {
  users : gmap Z user_row;
  trips : gmap Z trip_row;
  packages : gmap Z package_row;
  package_tracking : list tracking_row;
  package_disputes : list dispute_row;
  package_tracking_id_seq : Z;
  package_disputes_id_seq : Z
}.

(** [trackingData] built by [updatePackageStatus]. *)
Record tracking_data := {
  td_packageId : Z;
  td_status : string;
  td_userId : Z;
  td_notes : option string;
  td_location : option string;
  td_photoPath : option string;
  td_timestamp : Z
}.

(** [disputeData] received by [createDispute]. *)
Record dispute_data := {
  dd_reason : string;
  dd_description : string;
  dd_evidencePhotos : list string
}.

(** The writing statements the service sends through [client.query]. *)
Inductive statement :=
| UPDATE_packages (newStatus : string) (packageId : Z)
| INSERT_package_tracking (trackingData : tracking_data)
| INSERT_package_disputes (packageId userId : Z) (disputeData : dispute_data).

(** Uncommitted effect of a statement inside a transaction. *)
Inductive write :=
| SetStatus (packageId : Z) (newStatus : string) (updated_at : Z)
| AddTracking (row : tracking_row)
| AddDispute (row : dispute_row).

Definition set_packages (f : gmap Z package_row -> gmap Z package_row)
    (d : database) : database :=
  {| users := users d; trips := trips d; packages := f (packages d);
     package_tracking := package_tracking d;
     package_disputes := package_disputes d;
     package_tracking_id_seq := package_tracking_id_seq d;
     package_disputes_id_seq := package_disputes_id_seq d |}.

Definition set_package_tracking (f : list tracking_row -> list tracking_row)
    (d : database) : database :=
  {| users := users d; trips := trips d; packages := packages d;
     package_tracking := f (package_tracking d);
     package_disputes := package_disputes d;
     package_tracking_id_seq := package_tracking_id_seq d;
     package_disputes_id_seq := package_disputes_id_seq d |}.

Definition set_package_disputes (f : list dispute_row -> list dispute_row)
    (d : database) : database :=
  {| users := users d; trips := trips d; packages := packages d;
     package_tracking := package_tracking d;
     package_disputes := f (package_disputes d);
     package_tracking_id_seq := package_tracking_id_seq d;
     package_disputes_id_seq := package_disputes_id_seq d |}.

(** [nextval]: a sequence advances at once and outside any transaction. *)
Definition nextval_package_tracking (d : database) : database * Z :=
  let id := package_tracking_id_seq d + 1 in
  ({| users := users d; trips := trips d; packages := packages d;
      package_tracking := package_tracking d;
      package_disputes := package_disputes d;
      package_tracking_id_seq := id;
      package_disputes_id_seq := package_disputes_id_seq d |}, id).

Definition nextval_package_disputes (d : database) : database * Z :=
  let id := package_disputes_id_seq d + 1 in
  ({| users := users d; trips := trips d; packages := packages d;
      package_tracking := package_tracking d;
      package_disputes := package_disputes d;
      package_tracking_id_seq := package_tracking_id_seq d;
      package_disputes_id_seq := id |}, id).

Definition with_status (s : string) (updated_at : Z) (p : package_row)
    : package_row :=
  {| p_sender_id := p_sender_id p; p_trip_id := p_trip_id p;
     p_title := p_title p; p_status := Some s; p_updated_at := updated_at |}.

(** [UPDATE packages SET status = $1, updated_at = CURRENT_TIMESTAMP
     WHERE id = $2] changes the row with that key, if there is one. *)
Definition apply_write (d : database) (w : write) : database :=
  match w with
  | SetStatus packageId newStatus updated_at =>
      set_packages (alter (with_status newStatus updated_at) packageId) d
  | AddTracking row => set_package_tracking (fun l => l ++ [row]) d
  | AddDispute row => set_package_disputes (fun l => l ++ [row]) d
  end.

(** A pg client between [BEGIN] and [COMMIT]/[ROLLBACK] holds the writes of
    its open transaction; other clients do not see them ([BEGIN] without
    an isolation level: READ COMMITTED).  [COMMIT] applies them in order to
    the committed contents, [ROLLBACK] drops them. *)
Definition COMMIT (client : list write) (d : database) : database :=
  foldl apply_write d client.

(** The [REFERENCES] clauses of [initializeTables] on the columns above; a
    NULL reference is allowed. *)
Definition is_user (d : database) (ref : option Z) : Prop :=
  match ref with
  | Some id => is_Some (users d !! id)
  | None => True
  end.

Definition is_trip (d : database) (ref : option Z) : Prop :=
  match ref with
  | Some id => is_Some (trips d !! id)
  | None => True
  end.

Global Instance is_user_dec d ref : Decision (is_user d ref).
Proof. destruct ref; apply _. Defined.

Global Instance is_trip_dec d ref : Decision (is_trip d ref).
Proof. destruct ref; apply _. Defined.

Definition referential_integrity (d : database) : Prop :=
  map_Forall (fun _ t => is_user d (t_traveler_id t)) (trips d)
  ∧ map_Forall (fun _ p => is_user d (p_sender_id p) ∧ is_trip d (p_trip_id p))
      (packages d)
  ∧ Forall (fun pt => is_Some (packages d !! pt_package_id pt)
                      ∧ is_Some (users d !! pt_user_id pt))
      (package_tracking d)
  ∧ Forall (fun r => is_Some (packages d !! d_package_id r)
                     ∧ is_Some (users d !! d_reporter_id r))
      (package_disputes d).

Global Instance referential_integrity_dec d : Decision (referential_integrity d).
Proof. unfold referential_integrity. apply _. Defined.

(** ** Environment *)

(** Socket.IO rooms the service emits to. *)
Inductive room :=
| user_room (userId : option Z)
| package_room (packageId : Z)
| admin_room.

(** What the service does not decide: which statements the database
    refuses (a constraint of the deployed table, such as the CHECK that
    [initializeTables] puts on [packages.status] when it creates the table,
    or the width of a column; a lost connection; a failure forced by a
    test); whether a refused INSERT had drawn its number from the SERIAL
    sequence before it was refused (a constraint or a trigger refuses the
    row after its defaults are computed, a lost connection refuses it
    before); what [CURRENT_TIMESTAMP] is in the transaction that runs a
    statement; where the row of [package_tracking] with a given [id] lies
    in the heap, which is the order in which a query returns the rows that
    its [ORDER BY] leaves tied; whether [socketService.io] has been
    initialised, and for which rooms [emit] raises. *)
Record environment := {
  rejects : statement -> bool;
  nextval_before_refusal : statement -> bool;
  CURRENT_TIMESTAMP : statement -> Z;
  heap_position : Z -> Z;
  io_initialized : bool;
  emit_throws : room -> bool
}.

(** Events pushed through Socket.IO (the emission time stamp is left out). *)
Inductive event :=
| system_notification (packageId : Z) (status : string)
    (statusInfo : option status_message) (packageTitle : string)
| dispute_created (packageId disputeId reporterId : Z) (reason : string)
| new_dispute (packageId disputeId reporterId : Z) (reason : string).

(** The state the service acts on: the committed database and the events
    emitted so far, oldest first. *)
Record world := {
  db : database;
  emitted : list (room * event)
}.

(** ** Transition engine *)

Record options := {
  notes : option string;
  location : option string;
  photoPath : option string
}.

(** [x || null] on an optional string: absent and empty both give [null]. *)
Definition or_null (x : option string) : option string :=
  match x with
  | Some s => if String.eqb s "" then None else Some s
  | None => None
  end.

(** The range of an INTEGER column.  A parameter compared with such a
    column is read as an INTEGER: the database refuses the query when the
    number the service hands over (the [packageId] of the request, which
    the routes only require to be an integer of at least 1) lies beyond. *)
Definition int4 (n : Z) : bool := (- 2 ^ 31 <=? n) && (n <? 2 ^ 31).

(** The first query of [updatePackageStatus]:
    [FROM packages p JOIN trips t ON p.trip_id = t.id
     JOIN users u_sender ON p.sender_id = u_sender.id
     LEFT JOIN users u_traveler ... WHERE p.id = $1].
    The two inner joins drop a package without trip or without sender. *)
Definition select_package (d : database) (packageId : Z)
    : result (option package_data) :=
  if negb (int4 packageId) then Throw QueryError
  else
    Ok (p ← packages d !! packageId;
        trip_id ← p_trip_id p;
        t ← trips d !! trip_id;
        sender_id ← p_sender_id p;
        _ ← users d !! sender_id;
        Some {| pd_id := packageId;
                pd_sender_id := Some sender_id;
                pd_traveler_id := t_traveler_id t;
                pd_title := p_title p;
                pd_status := p_status p |}).

(** [updatePackageStatus] up to its first write: read the package, check
    the transition, then check the permission.  Nothing is written, so the
    [ROLLBACK] of the [catch] block has nothing to drop. *)
Definition load_and_validate (d : database) (packageId : Z) (newStatus : string)
    (userId : Z) : result package_data :=
  match select_package d packageId with
  | Throw e => Throw e
  | Ok None => Throw ColisNonTrouve
  | Ok (Some packageData) =>
      let currentStatus := of_column (pd_status packageData) in
      match isTransitionAllowed currentStatus newStatus with
      | Throw e => Throw e
      | Ok false => Throw (TransitionNonAutorisee currentStatus newStatus)
      | Ok true =>
          if hasPermissionToUpdate packageData userId newStatus
          then Ok packageData
          else Throw PermissionInsuffisante
      end
  end.

(** [UPDATE packages SET status = $1, updated_at = CURRENT_TIMESTAMP
     WHERE id = $2 RETURNING *] on a client: the write joins the open
    transaction and the returned row is the one this transaction sees. *)
Definition query_UPDATE_packages (env : environment) (d : database)
    (client : list write) (newStatus : string) (packageId : Z)
    : result (list write * option package_row) :=
  let sql := UPDATE_packages newStatus packageId in
  if rejects env sql then Throw QueryError
  else
    let client' :=
      client ++ [SetStatus packageId newStatus (CURRENT_TIMESTAMP env sql)] in
    Ok (client', packages (COMMIT client' d) !! packageId).

(** The row [INSERT INTO package_tracking (package_id, status, user_id,
    notes, location, photo_path, created_at) VALUES ($1, ..., $7)] adds,
    numbered by the sequence. *)
Definition inserted_tracking_row (id : Z) (trackingData : tracking_data)
    : tracking_row :=
  {| pt_id := id;
     pt_package_id := td_packageId trackingData;
     pt_status := td_status trackingData;
     pt_user_id := td_userId trackingData;
     pt_notes := td_notes trackingData;
     pt_location := td_location trackingData;
     pt_photo_path := td_photoPath trackingData;
     pt_created_at := td_timestamp trackingData |}.

(** [createTrackingRecord(client, trackingData)]:
    [INSERT INTO package_tracking ... RETURNING id].  The number drawn from
    the sequence is spent whether the row is kept or not. *)
Definition createTrackingRecord (env : environment) (d : database)
    (client : list write) (trackingData : tracking_data)
    : database * result (list write * Z) :=
  let sql := INSERT_package_tracking trackingData in
  if rejects env sql then
    (if nextval_before_refusal env sql
     then (nextval_package_tracking d).1 else d,
     Throw QueryError)
  else
    let '(d', id) := nextval_package_tracking d in
    (d', Ok (client ++ [AddTracking (inserted_tracking_row id trackingData)], id)).

(** ** Notification fan-out *)

(** [socketService.sendSystemNotification(userId, notification)]:
    [if (!this.io) return; this.io.to(`user_${userId}`).emit(...)], with no
    [try] around the emission. *)
Definition sendSystemNotification (env : environment) (w : world)
    (userId : option Z) (notification : event) : world * result unit :=
  if negb (io_initialized env) then (w, Ok tt)
  else if emit_throws env (user_room userId) then (w, Throw EmitError)
  else ({| db := db w;
           emitted := emitted w ++ [(user_room userId, notification)] |}, Ok tt).

(** Building [{ title: statusInfo.title, ... }]: reading a field of
    [undefined] raises, an inherited member has no such fields. *)
Definition status_notification (packageData : package_data) (newStatus : string)
    : result event :=
  match get_property STATUS_MESSAGES newStatus with
  | Own m =>
      Ok (system_notification (pd_id packageData) newStatus (Some m)
            (pd_title packageData))
  | Inherited =>
      Ok (system_notification (pd_id packageData) newStatus None
            (pd_title packageData))
  | Undefined => Throw TypeError
  end.

(** [sendStatusNotifications(packageData, newStatus, trackingData)]: the
    sender, then the traveler, each unless it is the acting user. *)
Definition sendStatusNotifications (env : environment) (w : world)
    (packageData : package_data) (newStatus : string)
    (trackingData : tracking_data) : world * result unit :=
  let to_sender :=
    if bool_decide (pd_sender_id packageData ≠ Some (td_userId trackingData)) then
      match status_notification packageData newStatus with
      | Throw e => (w, Throw e)
      | Ok n => sendSystemNotification env w (pd_sender_id packageData) n
      end
    else (w, Ok tt) in
  match to_sender with
  | (w1, Throw e) => (w1, Throw e)
  | (w1, Ok _) =>
      match pd_traveler_id packageData with
      | Some traveler_id =>
          if negb (traveler_id =? 0)
             && bool_decide (traveler_id ≠ td_userId trackingData) then
            match status_notification packageData newStatus with
            | Throw e => (w1, Throw e)
            | Ok n => sendSystemNotification env w1 (Some traveler_id) n
            end
          else (w1, Ok tt)
      | None => (w1, Ok tt)
      end
  end.

(** ** [updatePackageStatus] *)

Record update_result := {
  ur_package : option package_row;
  ur_tracking_id : Z;
  ur_tracking : tracking_data;
  ur_message : property status_message
}.

(** The object literal [trackingData] of [updatePackageStatus]. *)
Definition make_trackingData (packageId : Z) (newStatus : string) (userId : Z)
    (opts : options) (now : Z) : tracking_data :=
  {| td_packageId := packageId;
     td_status := newStatus;
     td_userId := userId;
     td_notes := or_null (notes opts);
     td_location := or_null (location opts);
     td_photoPath := or_null (photoPath opts);
     td_timestamp := now |}.

(** [updatePackageStatus] from its first write on: [UPDATE], the tracking
    record, [COMMIT], then the awaited notifications, all inside the [try]
    whose [catch] sends [ROLLBACK] and rethrows.  [now] is the reading of
    [new Date()].  A [ROLLBACK] before [COMMIT] drops the client's writes,
    but not a number drawn from a sequence; a [ROLLBACK] after [COMMIT]
    finds no open transaction. *)
Definition write_commit_notify (env : environment) (now : Z) (w : world)
    (packageData : package_data) (packageId : Z) (newStatus : string)
    (userId : Z) (opts : options) : world * result update_result :=
  match query_UPDATE_packages env (db w) [] newStatus packageId with
  | Throw e => (w, Throw e)
  | Ok (client1, updated) =>
      let trackingData := make_trackingData packageId newStatus userId opts now in
      match createTrackingRecord env (db w) client1 trackingData with
      | (d1, Throw e) => ({| db := d1; emitted := emitted w |}, Throw e)
      | (d1, Ok (client2, trackingId)) =>
          let committed := {| db := COMMIT client2 d1; emitted := emitted w |} in
          match sendStatusNotifications env committed packageData newStatus
                  trackingData with
          | (w', Throw e) => (w', Throw e)
          | (w', Ok _) =>
              (w', Ok {| ur_package := updated;
                         ur_tracking_id := trackingId;
                         ur_tracking := trackingData;
                         ur_message := get_property STATUS_MESSAGES newStatus |})
          end
      end
  end.

(** [updatePackageStatus(packageId, newStatus, userId, options)] on its own
    pooled client. *)
Definition updatePackageStatus (env : environment) (now : Z) (w : world)
    (packageId : Z) (newStatus : string) (userId : Z) (opts : options)
    : world * result update_result :=
  match load_and_validate (db w) packageId newStatus userId with
  | Throw e => (w, Throw e)
  | Ok packageData =>
      write_commit_notify env now w packageData packageId newStatus userId opts
  end.

(** ** Dispute sub-flow *)

Record dispute_result := {
  dr_disputeId : Z
}.

(** [socketService.notifyDisputeCreated(disputeData)]: two emissions inside
    one [try] whose [catch] only logs. *)
Definition notifyDisputeCreated (env : environment) (w : world)
    (packageId disputeId reporterId : Z) (reason : string) : world :=
  if negb (io_initialized env) then w
  else if emit_throws env (package_room packageId) then w
  else
    let w1 := {| db := db w;
                 emitted := emitted w ++
                   [(package_room packageId,
                     dispute_created packageId disputeId reporterId reason)] |} in
    if emit_throws env admin_room then w1
    else {| db := db w1;
            emitted := emitted w1 ++
              [(admin_room, new_dispute packageId disputeId reporterId reason)] |}.

(** [INSERT INTO package_disputes (..., created_at)
     VALUES ($1, ..., $5, CURRENT_TIMESTAMP) RETURNING id] on a client; the
    [status] column takes its default ['open'].  The number drawn from the
    sequence is spent whether the row is kept or not. *)
Definition query_INSERT_package_disputes (env : environment) (d : database)
    (client : list write) (packageId userId : Z) (disputeData : dispute_data)
    : database * result (list write * Z) :=
  let sql := INSERT_package_disputes packageId userId disputeData in
  if rejects env sql then
    (if nextval_before_refusal env sql
     then (nextval_package_disputes d).1 else d,
     Throw QueryError)
  else
    let '(d', id) := nextval_package_disputes d in
    let row := {| d_id := id;
                  d_package_id := packageId;
                  d_reporter_id := userId;
                  d_reason := dd_reason disputeData;
                  d_description := dd_description disputeData;
                  d_evidence_photos := dd_evidencePhotos disputeData;
                  d_status := "open";
                  d_created_at := CURRENT_TIMESTAMP env sql |} in
    (d', Ok (client ++ [AddDispute row], id)).

(** [createDispute(packageId, userId, disputeData)].  The method takes a
    client of its own and opens a transaction on it, then calls
    [updatePackageStatus], which takes a second client from the pool and
    commits there.  The dispute row is the only write of the outer
    transaction, so the outer [ROLLBACK] drops at most that row. *)
Definition createDispute (env : environment) (now : Z) (w : world)
    (packageId userId : Z) (disputeData : dispute_data)
    : world * result dispute_result :=
  let opts := {| notes := Some ("Litige déclaré: " +:+ dd_reason disputeData);
                 location := None;
                 photoPath := None |} in
  match updatePackageStatus env now w packageId (PACKAGE_STATUS DISPUTED)
          userId opts with
  | (w1, Throw e) => (w1, Throw e)
  | (w1, Ok _) =>
      match query_INSERT_package_disputes env (db w1) [] packageId userId
              disputeData with
      | (d2, Throw e) => ({| db := d2; emitted := emitted w1 |}, Throw e)
      | (d2, Ok (client, disputeId)) =>
          let committed := {| db := COMMIT client d2; emitted := emitted w1 |} in
          (notifyDisputeCreated env committed packageId disputeId userId
             (dd_reason disputeData),
           Ok {| dr_disputeId := disputeId |})
      end
  end.

(** ** History *)

(** One element of the array [getPackageTracking] returns. *)
Record tracking_record := {
  tr_id : Z;
  tr_status : string;
  tr_statusInfo : property status_message;
  tr_user_id : Z;
  tr_user_name : string;
  tr_notes : option string;
  tr_location : option string;
  tr_photoPath : option string;
  tr_timestamp : Z
}.

(** [FROM packages p JOIN trips t ON p.trip_id = t.id WHERE p.id = $1],
    selecting [p.sender_id, t.traveler_id]. *)
Definition select_access (d : database) (packageId : Z)
    : result (option (option Z * option Z)) :=
  if negb (int4 packageId) then Throw QueryError
  else
    Ok (p ← packages d !! packageId;
        trip_id ← p_trip_id p;
        t ← trips d !! trip_id;
        Some (p_sender_id p, t_traveler_id t)).

(** [ORDER BY pt.created_at ASC]. *)
Definition created_before (r1 r2 : tracking_row * user_row) : Prop :=
  pt_created_at r1.1 ≤ pt_created_at r2.1.

Global Instance created_before_dec r1 r2 : Decision (created_before r1 r2).
Proof. unfold created_before. apply _. Defined.

Global Instance created_before_total : Total created_before.
Proof. intros r1 r2. unfold created_before. lia. Qed.

Global Instance created_before_trans : Transitive created_before.
Proof. intros r1 r2 r3. unfold created_before. lia. Qed.

(** The order of the rows a query with [ORDER BY pt.created_at ASC]
    returns: by [created_at], and rows of equal [created_at] as the scan
    finds them in the heap. *)
Definition returned_before (env : environment) (r1 r2 : tracking_row * user_row)
    : Prop :=
  pt_created_at r1.1 < pt_created_at r2.1
  ∨ (pt_created_at r1.1 = pt_created_at r2.1
     ∧ heap_position env (pt_id r1.1) ≤ heap_position env (pt_id r2.1)).

Global Instance returned_before_dec env r1 r2 : Decision (returned_before env r1 r2).
Proof. unfold returned_before. apply _. Defined.

Global Instance returned_before_total env : Total (returned_before env).
Proof. intros r1 r2. unfold returned_before. lia. Qed.

Global Instance returned_before_trans env : Transitive (returned_before env).
Proof. intros r1 r2 r3. unfold returned_before. lia. Qed.

(** [JOIN users u ON pt.user_id = u.id] on one tracking row. *)
Definition join_user (d : database) (pt : tracking_row)
    : option (tracking_row * user_row) :=
  u ← users d !! pt_user_id pt; Some (pt, u).

(** [FROM package_tracking pt JOIN users u ON pt.user_id = u.id
     WHERE pt.package_id = $1 ORDER BY pt.created_at ASC]. *)
Definition select_tracking (env : environment) (d : database) (packageId : Z)
    : list (tracking_row * user_row) :=
  merge_sort (returned_before env)
    (omap (join_user d)
       (filter (fun pt => pt_package_id pt = packageId) (package_tracking d))).

Definition to_tracking_record (record : tracking_row * user_row) : tracking_record :=
  {| tr_id := pt_id record.1;
     tr_status := pt_status record.1;
     tr_statusInfo := get_property STATUS_MESSAGES (pt_status record.1);
     tr_user_id := pt_user_id record.1;
     tr_user_name := first_name record.2 +:+ " " +:+ last_name record.2;
     tr_notes := pt_notes record.1;
     tr_location := pt_location record.1;
     tr_photoPath := pt_photo_path record.1;
     tr_timestamp := pt_created_at record.1 |}.

(** [getPackageTracking(packageId, userId)], two reads through the pool.
    The second query takes the [packageId] that the first one accepted. *)
Definition getPackageTracking (env : environment) (d : database)
    (packageId userId : Z) : result (list tracking_record) :=
  match select_access d packageId with
  | Throw e => Throw e
  | Ok None => Throw ColisNonTrouve
  | Ok (Some (sender_id, traveler_id)) =>
      if bool_decide (Some userId ≠ sender_id)
         && bool_decide (Some userId ≠ traveler_id)
      then Throw AccesNonAutorise
      else Ok (to_tracking_record <$> select_tracking env d packageId)
  end.

(** ** Two calls in flight *)

Record request := {
  rq_packageId : Z;
  rq_newStatus : string;
  rq_userId : Z;
  rq_options : options;
  rq_now : Z
}.

(** Every [await] hands control to the other pending request handlers.  Two
    calls of [updatePackageStatus], each on its own client, scheduled so
    that both have read and checked the package before either writes: the
    first then writes and commits, and the second, whose [UPDATE] names the
    row by [id] alone, writes and commits after it. *)
Definition updatePackageStatus_overlapping (env : environment) (w : world)
    (a b : request) : world * result update_result * result update_result :=
  let loaded_a :=
    load_and_validate (db w) (rq_packageId a) (rq_newStatus a) (rq_userId a) in
  let loaded_b :=
    load_and_validate (db w) (rq_packageId b) (rq_newStatus b) (rq_userId b) in
  let '(w1, result_a) :=
    match loaded_a with
    | Throw e => (w, Throw e)
    | Ok packageData =>
        write_commit_notify env (rq_now a) w packageData (rq_packageId a)
          (rq_newStatus a) (rq_userId a) (rq_options a)
    end in
  let '(w2, result_b) :=
    match loaded_b with
    | Throw e => (w1, Throw e)
    | Ok packageData =>
        write_commit_notify env (rq_now b) w1 packageData (rq_packageId b)
          (rq_newStatus b) (rq_userId b) (rq_options b)
    end in
  (w2, result_a, result_b).

(** ** Sample data *)

(** Sender 10 (Awa), traveler 20 (Koffi), trip 5, package 1 in the given
    status, no history yet. *)
Definition sample_database (status : option string) : database :=
  {| users := <[10 := {| first_name := "Awa"; last_name := "Diallo" |}]>
              (<[20 := {| first_name := "Koffi"; last_name := "Mensah" |}]> ∅);
     trips := <[5 := {| t_traveler_id := Some 20 |}]> ∅;
     packages := <[1 := {| p_sender_id := Some 10; p_trip_id := Some 5;
                           p_title := "Documents"; p_status := status;
                           p_updated_at := 0 |}]> ∅;
     package_tracking := []; package_disputes := [];
     package_tracking_id_seq := 0; package_disputes_id_seq := 0 |}.

Definition sample_world (status : option string) : world :=
  {| db := sample_database status; emitted := [] |}.

Definition no_options : options :=
  {| notes := None; location := None; photoPath := None |}.

(** Package 1 after two steps of the traveler, the later record lying
    first in the table; the sequence has numbered both. *)
Definition sample_history : database :=
  {| users := users (sample_database (Some "picked_up"));
     trips := trips (sample_database (Some "picked_up"));
     packages := packages (sample_database (Some "picked_up"));
     package_tracking :=
       [ {| pt_id := 2; pt_package_id := 1; pt_status := "picked_up";
            pt_user_id := 20; pt_notes := None; pt_location := Some "Abidjan";
            pt_photo_path := None; pt_created_at := 200 |};
         {| pt_id := 1; pt_package_id := 1; pt_status := "accepted";
            pt_user_id := 20; pt_notes := None; pt_location := None;
            pt_photo_path := None; pt_created_at := 100 |} ];
     package_disputes := [];
     package_tracking_id_seq := 2;
     package_disputes_id_seq := 0 |}.

(** A second package on the same trip, 'accepted', with its own record,
    the third that the sequence has numbered. *)
Definition sample_two_packages : database :=
  {| users := users sample_history;
     trips := trips sample_history;
     packages :=
       <[2 := {| p_sender_id := Some 10; p_trip_id := Some 5;
                 p_title := "Livres"; p_status := Some "accepted";
                 p_updated_at := 250 |}]> (packages sample_history);
     package_tracking :=
       package_tracking sample_history ++
       [ {| pt_id := 3; pt_package_id := 2; pt_status := "accepted";
            pt_user_id := 20; pt_notes := None; pt_location := None;
            pt_photo_path := None; pt_created_at := 250 |} ];
     package_disputes := [];
     package_tracking_id_seq := 3;
     package_disputes_id_seq := 0 |}.

Definition sample_dispute : dispute_data :=
  {| dd_reason := "Colis endommagé";
     dd_description := "Le colis est arrivé ouvert et abîmé";
     dd_evidencePhotos := [] |}.

(** A database that accepts every statement, whose clock shows 1000 and
    whose heap keeps the rows in the order of their numbers, with Socket.IO
    running and every emission going through. *)
Definition quiet : environment :=
  {| rejects := fun _ => false;
     nextval_before_refusal := fun _ => true;
     CURRENT_TIMESTAMP := fun _ => 1000;
     heap_position := fun id => id;
     io_initialized := true;
     emit_throws := fun _ => false |}.

(** As [quiet], but the database refuses the insertion of a dispute, after
    it has drawn the number of the row. *)
Definition dispute_insert_refused : environment :=
  {| rejects := fun s =>
       match s with
       | INSERT_package_disputes _ _ _ => true
       | UPDATE_packages _ _ | INSERT_package_tracking _ => false
       end;
     nextval_before_refusal := fun _ => true;
     CURRENT_TIMESTAMP := fun _ => 1000;
     heap_position := fun id => id;
     io_initialized := true;
     emit_throws := fun _ => false |}.



(** As [quiet], but rows of equal [created_at] come back latest number
    first. *)
Definition newest_first : environment :=
  {| rejects := fun _ => false;
     nextval_before_refusal := fun _ => true;
     CURRENT_TIMESTAMP := fun _ => 1000;
     heap_position := fun id => - id;
     io_initialized := true;
     emit_throws := fun _ => false |}.

(** Socket.IO not initialised; every emission would raise. *)
Definition no_socket : environment :=
  {| rejects := fun _ => false;
     nextval_before_refusal := fun _ => true;
     CURRENT_TIMESTAMP := fun _ => 1000;
     heap_position := fun id => id;
     io_initialized := false;
     emit_throws := fun _ => true |}.

(** As [quiet], but the emissions of a dispute, to the room of the package
    and to the administrators, raise. *)
Definition dispute_rooms_broken : environment :=
  {| rejects := fun _ => false;
     nextval_before_refusal := fun _ => true;
     CURRENT_TIMESTAMP := fun _ => 1000;
     heap_position := fun id => id;
     io_initialized := true;
     emit_throws := fun r =>
       match r with
       | user_room _ => false
       | package_room _ | admin_room => true
       end |}.

(** As [quiet], but the emission to the room of user 10 raises. *)
Definition sender_room_broken : environment :=
  {| rejects := fun _ => false;
     nextval_before_refusal := fun _ => true;
     CURRENT_TIMESTAMP := fun _ => 1000;
     heap_position := fun id => id;
     io_initialized := true;
     emit_throws := fun r =>
       match r with
       | user_room (Some userId) => userId =? 10
       | user_room None | package_room _ | admin_room => false
       end |}.

(** Two requests on package 1: the traveler picks it up, the sender opens a
    dispute. *)
Definition traveler_picks_up : request :=
  {| rq_packageId := 1; rq_newStatus := PACKAGE_STATUS PICKED_UP;
     rq_userId := 20; rq_options := no_options; rq_now := 100 |}.

Definition sender_disputes : request :=
  {| rq_packageId := 1; rq_newStatus := PACKAGE_STATUS DISPUTED;
     rq_userId := 10; rq_options := no_options; rq_now := 101 |}.

(** The sender of package 1, in status 'accepted', files a dispute while
    the database refuses the insertion of the dispute. *)
Definition refused_dispute : world * result dispute_result :=
  createDispute dispute_insert_refused 100 (sample_world (Some "accepted")) 1 10
    sample_dispute.

(** The traveler accepts package 1, in status 'requested', while the
    emission to the sender's room raises. *)
Definition unheard_acceptance : world * result update_result :=
  updatePackageStatus sender_room_broken 100 (sample_world (Some "requested")) 1
    (PACKAGE_STATUS ACCEPTED) 20 no_options.

(** The traveler files a dispute on package 1, in status 'requested', while
    the emission to the sender's room raises. *)
Definition unheard_dispute : world * result dispute_result :=
  createDispute sender_room_broken 100 (sample_world (Some "requested")) 1 20
    sample_dispute.

(** Both requests read package 1 in status 'accepted' before either
    writes. *)
Definition overlapping_outcome
    : world * result update_result * result update_result :=
  updatePackageStatus_overlapping quiet (sample_world (Some "accepted"))
    traveler_picks_up sender_disputes.

(** The traveler accepts package 1 and picks it up while the clock of
    [new Date()] shows the same reading, 100, at both calls. *)
Definition accepted_at_100 : world * result update_result :=
  updatePackageStatus quiet 100 (sample_world (Some "requested")) 1
    (PACKAGE_STATUS ACCEPTED) 20 no_options.

Definition picked_up_at_100 : world * result update_result :=
  updatePackageStatus quiet 100 accepted_at_100.1 1 (PACKAGE_STATUS PICKED_UP) 20
    no_options.

(** The history of package 1 after these two calls, read by the traveler
    from a database that returns rows of equal [created_at] latest number
    first. *)
Definition history_at_100 : result (list tracking_record) :=
  getPackageTracking newest_first (db picked_up_at_100.1) 1 20.

(** The history of a package that does not exist, asked for under an
    identifier beyond the range of the [id] column. *)
Definition history_beyond_int4 : result (list tracking_record) :=
  getPackageTracking quiet sample_history 2147483648 10.

(** The sender, then the traveler, asks for 'requested' on package 1,
    which has no status. *)
Definition statusless_request : world * result update_result :=
  updatePackageStatus quiet 100 (sample_world None) 1 (PACKAGE_STATUS REQUESTED) 10
    no_options.

Definition statusless_request_of_traveler : world * result update_result :=
  updatePackageStatus quiet 100 (sample_world None) 1 (PACKAGE_STATUS REQUESTED) 20
    no_options.

(** The outcome the specification (section 5) asks of two overlapping
    calls: one succeeds, the other fails with a Conflict. *)
Definition one_success_one_Conflict {A} (ra rb : result A) : Prop :=
  (succeeded ra = true ∧ ∃ e, rb = Throw e ∧ kind_of e = Conflict)
  ∨ (succeeded rb = true ∧ ∃ e, ra = Throw e ∧ kind_of e = Conflict).

(** ** Statistics and listings *)

(** The row [getTrackingStats] returns.  pg hands each [COUNT] over as the
    decimal text of the number kept here. *)
Record tracking_stats := {
  total_packages : nat;
  delivered_packages : nat;
  disputed_packages : nat;
  active_packages : nat
}.

(** [FROM packages p JOIN trips t ON p.trip_id = t.id
     WHERE p.sender_id = $1 OR t.traveler_id = $1] on one package: a NULL
    never equals [$1]. *)
Definition involves (d : database) (userId : Z) (p : package_row) : bool :=
  match p_trip_id p ≫= (fun trip_id => trips d !! trip_id) with
  | Some t =>
      bool_decide (p_sender_id p = Some userId)
      || bool_decide (t_traveler_id t = Some userId)
  | None => false
  end.

Definition packages_involving (d : database) (userId : Z) : list package_row :=
  filter (fun p => involves d userId p = true) (map_to_list (packages d)).*2.

(** [status IN (...)]: never true of a NULL status. *)
Definition status_in (tokens : list string) (p : package_row) : bool :=
  match p_status p with
  | Some s => bool_decide (s ∈ tokens)
  | None => false
  end.

(** [COUNT(CASE WHEN p.status ... THEN 1 END)]. *)
Definition count_status (tokens : list string) (rows : list package_row) : nat :=
  length (filter (fun p => status_in tokens p = true) rows).

(** [getTrackingStats(userId)]. *)
Definition getTrackingStats (d : database) (userId : Z) : tracking_stats :=
  let rows := packages_involving d userId in
  {| total_packages := length rows;
     delivered_packages := count_status ["delivered"] rows;
     disputed_packages := count_status ["disputed"] rows;
     active_packages := count_status ["in_transit"; "arrived"] rows |}.








(** The state after a number has been drawn from a sequence and nothing
    else has happened: what a refused INSERT leaves behind when it was
    refused after [nextval]. *)
Definition after_nextval_package_tracking (w : world) : world :=
  {| db := (nextval_package_tracking (db w)).1; emitted := emitted w |}.

Definition after_nextval_package_disputes (w : world) : world :=
  {| db := (nextval_package_disputes (db w)).1; emitted := emitted w |}.

(** The invariant of the data model: every stored status is one of the
    seven tokens of [PACKAGE_STATUS]. *)
Definition statuses_are_tokens (d : database) : Prop :=
  map_Forall (fun _ p => ∃ k, p_status p = Some (PACKAGE_STATUS k)) (packages d).

(** * Properties *)

(** ** Status registry *)

Lemma PACKAGE_STATUS_inj (a b : status_name) :
  PACKAGE_STATUS a = PACKAGE_STATUS b -> a = b.
Proof. destruct a, b; simpl; intros H; first [reflexivity | discriminate H]. Qed.

Lemma ALLOWED_TRANSITIONS_lookup (s : status_name) :
  get_property ALLOWED_TRANSITIONS (PACKAGE_STATUS s)
  = Own (PACKAGE_STATUS <$> transition_graph s).
Proof. destruct s; vm_compute; reflexivity. Qed.

Lemma truthy_PACKAGE_STATUS (s : status_name) :
  truthy (JString (PACKAGE_STATUS s)) = true.
Proof. destruct s; reflexivity. Qed.

(** C3. The transition graph of the code is the one of the specification:
    for each of the seven statuses the allowed next states are the listed
    ones, and [isTransitionAllowed] from that status accepts a target
    exactly when it is one of them, be the target one of the seven tokens
    or any other string. *)
Theorem transition_graph_exact (s : status_name) :
  availableStatuses (JString (PACKAGE_STATUS s))
    = Ok (PACKAGE_STATUS <$> transition_graph s)
  ∧ (∀ newStatus : string,
       isTransitionAllowed (JString (PACKAGE_STATUS s)) newStatus
       = Ok (bool_decide (newStatus ∈ PACKAGE_STATUS <$> transition_graph s)))
  ∧ (∀ n : status_name,
       isTransitionAllowed (JString (PACKAGE_STATUS s)) (PACKAGE_STATUS n)
       = Ok (bool_decide (n ∈ transition_graph s))).
Proof.
  assert (Hall : ∀ newStatus : string,
             isTransitionAllowed (JString (PACKAGE_STATUS s)) newStatus
             = Ok (bool_decide (newStatus ∈ PACKAGE_STATUS <$> transition_graph s))).
  { intros newStatus. unfold isTransitionAllowed.
    rewrite truthy_PACKAGE_STATUS, ALLOWED_TRANSITIONS_lookup. simpl.
    unfold includes. by rewrite orb_false_r. }
  split; [|split].
  - unfold availableStatuses.
    by rewrite truthy_PACKAGE_STATUS, ALLOWED_TRANSITIONS_lookup.
  - exact Hall.
  - intros n. rewrite Hall. f_equal. apply bool_decide_ext. split.
    + intros (m & Heq & Hin)%list_elem_of_fmap.
      by rewrite (PACKAGE_STATUS_inj _ _ Heq).
    + intros Hin. apply list_elem_of_fmap. by exists n.
Qed.

(** C4. Role gating: the permission is granted exactly in three cases: the
    target is ACCEPTED, PICKED_UP, IN_TRANSIT or ARRIVED and the actor is
    the traveler of the package; the target is DELIVERED and the actor is
    its sender; the target is DISPUTED and the actor is either of the two.
    Nothing is granted to another identity or for another target. *)
Theorem role_gating (packageData : package_data) (userId : Z) (newStatus : string) :
  hasPermissionToUpdate packageData userId newStatus = true ↔
    (newStatus ∈ PACKAGE_STATUS <$> [ACCEPTED; PICKED_UP; IN_TRANSIT; ARRIVED]
       ∧ pd_traveler_id packageData = Some userId)
    ∨ (newStatus = PACKAGE_STATUS DELIVERED
       ∧ pd_sender_id packageData = Some userId)
    ∨ (newStatus = PACKAGE_STATUS DISPUTED
       ∧ (pd_sender_id packageData = Some userId
          ∨ pd_traveler_id packageData = Some userId)).
Proof.
  unfold hasPermissionToUpdate. simpl.
  rewrite !elem_of_cons, elem_of_nil.
  repeat case_bool_decide; subst; simpl;
    rewrite ?orb_true_iff, ?bool_decide_eq_true; intuition congruence.
Qed.

(** C10, as the code has it.  A current status that is absent ([null],
    [undefined] or the empty string, a NULL column being read as [null])
    passes the transition check exactly when the target is REQUESTED.  The
    engine accepts no transition from a package without status all the
    same: REQUESTED passes the transition check and is then refused at the
    permission check, which grants it to nobody, and every other target is
    refused at the transition check.  Either way nothing is written. *)
Theorem absent_status_admits_requested_engine_refuses (newStatus : string) :
  isTransitionAllowed JNull newStatus
    = Ok (bool_decide (newStatus = PACKAGE_STATUS REQUESTED))
  ∧ isTransitionAllowed JUndefined newStatus
    = Ok (bool_decide (newStatus = PACKAGE_STATUS REQUESTED))
  ∧ isTransitionAllowed (JString "") newStatus
    = Ok (bool_decide (newStatus = PACKAGE_STATUS REQUESTED))
  ∧ (∀ current : jsval,
       truthy current = false ->
       (isTransitionAllowed current newStatus = Ok true
        ↔ newStatus = PACKAGE_STATUS REQUESTED))
  ∧ (∀ (env : environment) (now : Z) (w : world) (packageId userId : Z)
       (opts : options) (packageData : package_data),
       select_package (db w) packageId = Ok (Some packageData) ->
       truthy (of_column (pd_status packageData)) = false ->
       hasPermissionToUpdate packageData userId (PACKAGE_STATUS REQUESTED) = false
       ∧ ∃ e, updatePackageStatus env now w packageId newStatus userId opts
              = (w, Throw e)
            ∧ (newStatus = PACKAGE_STATUS REQUESTED -> e = PermissionInsuffisante)
            ∧ (newStatus ≠ PACKAGE_STATUS REQUESTED ->
               e = TransitionNonAutorisee (of_column (pd_status packageData))
                     newStatus)).
Proof.
  split; [reflexivity|]. split; [reflexivity|]. split; [reflexivity|].
  split.
  - intros current Hfalsy. unfold isTransitionAllowed. rewrite Hfalsy.
    cbn [negb]. split.
    + intros [= Hb]. by apply bool_decide_eq_true in Hb.
    + intros Heq. f_equal. by apply bool_decide_eq_true.
  - intros env now w packageId userId opts packageData Hsel Hfalsy.
    split; [reflexivity|].
    unfold updatePackageStatus, load_and_validate, isTransitionAllowed.
    rewrite Hsel, Hfalsy. cbn [negb].
    destruct (bool_decide_reflect (newStatus = PACKAGE_STATUS REQUESTED))
      as [Hrequested|Hother].
    + subst newStatus. exists PermissionInsuffisante. by repeat split.
    + eexists. split; [reflexivity|]. by split.
Qed.

Lemma absent_status_admits_requested_engine_refuses_witness :
  (isTransitionAllowed JNull "requested" = Ok true
   ∧ isTransitionAllowed JNull "accepted" ≠ Ok true)
  ∧ ∃ e, updatePackageStatus quiet 100 (sample_world None) 1 "requested" 20
           no_options = (sample_world None, Throw e)
         ∧ e = PermissionInsuffisante.
Proof.
  pose proof (absent_status_admits_requested_engine_refuses "requested")
    as (_ & _ & _ & Hrequested & Hengine).
  pose proof (absent_status_admits_requested_engine_refuses "accepted")
    as (_ & _ & _ & Haccepted & _).
  split; [split|].
  - apply (Hrequested JNull); reflexivity.
  - intros H. apply (Haccepted JNull) in H; [discriminate H|reflexivity].
  - destruct (Hengine quiet 100 (sample_world None) 1 20 no_options
                {| pd_id := 1; pd_sender_id := Some 10; pd_traveler_id := Some 20;
                   pd_title := "Documents"; pd_status := None |})
      as (_ & e & Hcall & He & _); [vm_compute; reflexivity..|].
    exists e. split; [exact Hcall|]. by apply He.
Defined.

(** C10, as the claim states it, fails.  Package 1 has no status.  The
    target 'requested' passes the transition check, but the engine does not
    accept it: asked by the sender or by the traveler of the package,
    [updatePackageStatus] throws 'Permission insuffisante pour cette action'
    and the package is left without status. *)
Lemma statusless_request_is_refused :
  p_status <$> packages (sample_database None) !! 1 = Some None
  ∧ isTransitionAllowed (of_column None) (PACKAGE_STATUS REQUESTED) = Ok true
  ∧ statusless_request = (sample_world None, Throw PermissionInsuffisante)
  ∧ statusless_request_of_traveler
    = (sample_world None, Throw PermissionInsuffisante)
  ∧ succeeded statusless_request.2 = false
  ∧ succeeded statusless_request_of_traveler.2 = false
  ∧ p_status <$> packages (db statusless_request.1) !! 1 = Some None.
Proof. vm_compute. repeat split; reflexivity. Qed.

(** ** Errors of the write phase *)

Lemma sendSystemNotification_db env w userId n :
  db (sendSystemNotification env w userId n).1 = db w.
Proof.
  unfold sendSystemNotification.
  destruct (io_initialized env), (emit_throws env (user_room userId)); reflexivity.
Qed.

Lemma sendSystemNotification_Throw env w userId n w' e :
  sendSystemNotification env w userId n = (w', Throw e) ->
  e = EmitError ∧ emit_throws env (user_room userId) = true.
Proof.
  unfold sendSystemNotification.
  destruct (io_initialized env), (emit_throws env (user_room userId));
    simpl; intros H; inversion H; auto.
Qed.

Lemma status_notification_Throw packageData newStatus e :
  status_notification packageData newStatus = Throw e -> e = TypeError.
Proof.
  unfold status_notification.
  destruct (get_property STATUS_MESSAGES newStatus); intros H; inversion H; auto.
Qed.

Lemma sendStatusNotifications_db env w packageData newStatus trackingData :
  db (sendStatusNotifications env w packageData newStatus trackingData).1 = db w.
Proof.
  unfold sendStatusNotifications.
  destruct (status_notification packageData newStatus) as [n|e].
  - pose proof (sendSystemNotification_db env w (pd_sender_id packageData) n) as Hs.
    destruct (bool_decide _); simpl.
    + destruct (sendSystemNotification env w (pd_sender_id packageData) n)
        as [w1 [[]|e1]]; simpl in *; [|done].
      destruct (pd_traveler_id packageData) as [traveler_id|]; [|done].
      destruct (_ && _); [|done].
      rewrite sendSystemNotification_db. done.
    + destruct (pd_traveler_id packageData) as [traveler_id|]; [|done].
      destruct (_ && _); [|done].
      rewrite sendSystemNotification_db. done.
  - destruct (bool_decide _); simpl; [done|].
    destruct (pd_traveler_id packageData) as [traveler_id|]; [|done].
    destruct (_ && _); done.
Qed.

Lemma sendStatusNotifications_Throw env w packageData newStatus trackingData w' e :
  sendStatusNotifications env w packageData newStatus trackingData = (w', Throw e) ->
  e = EmitError ∨ e = TypeError.
Proof.
  unfold sendStatusNotifications.
  destruct (status_notification packageData newStatus) as [n|e0] eqn:Hn.
  - destruct (bool_decide _); simpl.
    + destruct (sendSystemNotification env w (pd_sender_id packageData) n)
        as [w1 [[]|e1]] eqn:Hs; simpl.
      * destruct (pd_traveler_id packageData) as [traveler_id|]; [|done].
        destruct (_ && _); [|done].
        intros [-> _]%sendSystemNotification_Throw. by left.
      * apply sendSystemNotification_Throw in Hs as [-> _].
        intros H; inversion H. by left.
    + destruct (pd_traveler_id packageData) as [traveler_id|]; [|done].
      destruct (_ && _); [|done].
      intros [-> _]%sendSystemNotification_Throw. by left.
  - apply status_notification_Throw in Hn as ->.
    destruct (bool_decide _); simpl.
    + intros H; inversion H. by right.
    + destruct (pd_traveler_id packageData) as [traveler_id|]; [|done].
      destruct (_ && _); [|done].
      intros H; inversion H. by right.
Qed.

Lemma write_commit_notify_Throw env now w packageData packageId newStatus userId
    opts w' e :
  write_commit_notify env now w packageData packageId newStatus userId opts
    = (w', Throw e) ->
  e = QueryError ∨ e = EmitError ∨ e = TypeError.
Proof.
  unfold write_commit_notify, query_UPDATE_packages, createTrackingRecord.
  destruct (rejects env (UPDATE_packages _ _)); simpl.
  { intros H; inversion H; auto. }
  destruct (rejects env (INSERT_package_tracking _)); simpl.
  { intros H; inversion H; auto. }
  destruct (sendStatusNotifications _ _ _ _ _) as [w1 [[]|e1]] eqn:Hs.
  - intros H; inversion H.
  - apply sendStatusNotifications_Throw in Hs.
    intros H; inversion H; subst. tauto.
Qed.

Lemma load_and_validate_Throw_kind d packageId newStatus userId e :
  load_and_validate d packageId newStatus userId = Throw e ->
  kind_of e = NotFound ∨ kind_of e = InvalidTransition
  ∨ kind_of e = PermissionDenied ∨ e = TypeError ∨ e = QueryError.
Proof.
  unfold load_and_validate, select_package.
  destruct (negb (int4 packageId)); [intros H; inversion H; auto 10|].
  destruct (_ ≫= _) as [packageData|].
  - unfold isTransitionAllowed.
    destruct (negb (truthy _)).
    + destruct (bool_decide _).
      * destruct (hasPermissionToUpdate _ _ _); intros H; inversion H; auto.
      * intros H; inversion H; auto.
    + destruct (of_column _) as [| |s]; try (intros H; inversion H; auto; fail).
      destruct (get_property _ _) as [l| |].
      * destruct (includes l newStatus || false).
        -- destruct (hasPermissionToUpdate _ _ _); intros H; inversion H; auto.
        -- intros H; inversion H; auto.
      * intros H; inversion H; auto.
      * intros H; inversion H; auto.
  - intros H; inversion H; auto.
Qed.

(** ** Transition engine *)

(** C5. A call that fails with InvalidTransition or PermissionDenied failed
    in the phase that precedes every write, and it leaves the whole state
    as it was: stored status, history and emitted events. *)
Theorem validation_failure_no_side_effect (env : environment) (now : Z) (w : world)
    (packageId : Z) (newStatus : string) (userId : Z) (opts : options)
    (w' : world) (e : error) :
  updatePackageStatus env now w packageId newStatus userId opts = (w', Throw e) ->
  kind_of e = InvalidTransition ∨ kind_of e = PermissionDenied ->
  load_and_validate (db w) packageId newStatus userId = Throw e
  ∧ w' = w
  ∧ packages (db w') = packages (db w)
  ∧ package_tracking (db w') = package_tracking (db w).
Proof.
  unfold updatePackageStatus. intros Hcall Hkind.
  destruct (load_and_validate (db w) packageId newStatus userId)
    as [packageData|e0] eqn:Hload.
  - apply write_commit_notify_Throw in Hcall.
    destruct Hcall as [-> | [-> | ->]]; simpl in Hkind; destruct Hkind; discriminate.
  - inversion Hcall; subst. auto.
Qed.

Lemma validation_failure_no_side_effect_witness :
  updatePackageStatus quiet 100 (sample_world (Some "accepted")) 1 "delivered" 10
    no_options
  = (sample_world (Some "accepted"),
     Throw (TransitionNonAutorisee (JString "accepted") "delivered"))
  ∧ load_and_validate (sample_database (Some "accepted")) 1 "delivered" 10
    = Throw (TransitionNonAutorisee (JString "accepted") "delivered").
Proof.
  assert (Hcall :
    updatePackageStatus quiet 100 (sample_world (Some "accepted")) 1 "delivered"
      10 no_options
    = (sample_world (Some "accepted"),
       Throw (TransitionNonAutorisee (JString "accepted") "delivered")))
    by (vm_compute; reflexivity).
  split; [exact Hcall|].
  apply (validation_failure_no_side_effect quiet 100
           (sample_world (Some "accepted")) 1 "delivered" 10 no_options _ _ Hcall).
  left. reflexivity.
Defined.

(** C6. The transition is checked before the permission: a request that is
    not a transition of the graph fails with InvalidTransition and changes
    nothing, whoever the actor is; so a request that is neither a
    transition of the graph nor permitted to the actor fails with
    InvalidTransition, not with PermissionDenied. *)
Theorem validity_checked_before_permission (env : environment) (now : Z)
    (w : world) (packageId : Z) (newStatus : string) (userId : Z)
    (opts : options) (packageData : package_data) :
  select_package (db w) packageId = Ok (Some packageData) ->
  isTransitionAllowed (of_column (pd_status packageData)) newStatus = Ok false ->
  ∃ e, updatePackageStatus env now w packageId newStatus userId opts
       = (w, Throw e)
       ∧ e = TransitionNonAutorisee (of_column (pd_status packageData)) newStatus
       ∧ kind_of e = InvalidTransition
       ∧ kind_of e ≠ PermissionDenied.
Proof.
  intros Hsel Hallowed.
  exists (TransitionNonAutorisee (of_column (pd_status packageData)) newStatus).
  unfold updatePackageStatus, load_and_validate.
  rewrite Hsel, Hallowed. repeat split. discriminate.
Qed.

(** A transition of the graph requested by an actor who is not permitted
    fails with PermissionDenied and changes nothing. *)
Lemma unpermitted_transition_denied (env : environment) (now : Z) (w : world)
    (packageId : Z) (newStatus : string) (userId : Z) (opts : options)
    (packageData : package_data) :
  select_package (db w) packageId = Ok (Some packageData) ->
  isTransitionAllowed (of_column (pd_status packageData)) newStatus = Ok true ->
  hasPermissionToUpdate packageData userId newStatus = false ->
  updatePackageStatus env now w packageId newStatus userId opts
  = (w, Throw PermissionInsuffisante).
Proof.
  intros Hsel Hallowed Hperm. unfold updatePackageStatus, load_and_validate.
  by rewrite Hsel, Hallowed, Hperm.
Qed.

Lemma validity_checked_before_permission_witness :
  hasPermissionToUpdate
    {| pd_id := 1; pd_sender_id := Some 10; pd_traveler_id := Some 20;
       pd_title := "Documents"; pd_status := Some "accepted" |} 10 "accepted"
  = false
  ∧ ∃ e, updatePackageStatus quiet 100 (sample_world (Some "accepted")) 1
         "accepted" 10 no_options
       = (sample_world (Some "accepted"), Throw e)
       ∧ e = TransitionNonAutorisee (JString "accepted") "accepted"
       ∧ kind_of e = InvalidTransition
       ∧ kind_of e ≠ PermissionDenied.
Proof.
  split; [reflexivity|].
  apply (validity_checked_before_permission quiet 100
           (sample_world (Some "accepted")) 1 "accepted" 10 no_options
           {| pd_id := 1; pd_sender_id := Some 10; pd_traveler_id := Some 20;
              pd_title := "Documents"; pd_status := Some "accepted" |});
    vm_compute; reflexivity.
Defined.

(** ** What a successful call has written *)

Lemma load_and_validate_Ok d packageId newStatus userId packageData :
  load_and_validate d packageId newStatus userId = Ok packageData ->
  select_package d packageId = Ok (Some packageData)
  ∧ isTransitionAllowed (of_column (pd_status packageData)) newStatus = Ok true
  ∧ hasPermissionToUpdate packageData userId newStatus = true.
Proof.
  unfold load_and_validate.
  destruct (select_package d packageId) as [[pd|]|]; [|discriminate..].
  destruct (isTransitionAllowed _ _) as [[]|] eqn:Hallowed; try discriminate.
  destruct (hasPermissionToUpdate _ _ _) eqn:Hperm; [|discriminate].
  intros H; inversion H; subst. auto.
Qed.

Lemma write_commit_notify_Ok env now w packageData packageId newStatus userId
    opts w' r :
  write_commit_notify env now w packageData packageId newStatus userId opts
    = (w', Ok r) ->
  rejects env (UPDATE_packages newStatus packageId) = false
  ∧ rejects env (INSERT_package_tracking
                   (make_trackingData packageId newStatus userId opts now)) = false
  ∧ db w' = COMMIT
      [SetStatus packageId newStatus
         (CURRENT_TIMESTAMP env (UPDATE_packages newStatus packageId));
       AddTracking (inserted_tracking_row (package_tracking_id_seq (db w) + 1)
                      (make_trackingData packageId newStatus userId opts now))]
      (nextval_package_tracking (db w)).1.
Proof.
  unfold write_commit_notify, query_UPDATE_packages, createTrackingRecord.
  destruct (rejects env (UPDATE_packages _ _)); simpl; [discriminate|].
  destruct (rejects env (INSERT_package_tracking _)); simpl; [discriminate|].
  match goal with
  | |- context [sendStatusNotifications ?e ?c ?p ?s ?t] =>
      pose proof (sendStatusNotifications_db e c p s t) as Hdb;
      destruct (sendStatusNotifications e c p s t) as [w1 [[]|e1]]
  end; [|discriminate].
  intros H; inversion H; subst. simpl in Hdb. auto.
Qed.

Lemma write_commit_notify_tracking_id env now w packageData packageId newStatus
    userId opts w' r :
  write_commit_notify env now w packageData packageId newStatus userId opts
    = (w', Ok r) ->
  ur_tracking_id r = package_tracking_id_seq (db w) + 1.
Proof.
  unfold write_commit_notify, query_UPDATE_packages, createTrackingRecord.
  destruct (rejects env (UPDATE_packages _ _)); simpl; [discriminate|].
  destruct (rejects env (INSERT_package_tracking _)); simpl; [discriminate|].
  destruct (sendStatusNotifications _ _ _ _ _) as [w1 [[]|e1]]; [|discriminate].
  intros H; by inversion H.
Qed.

(** What a call that got through the checks leaves behind: nothing, a
    number drawn from the sequence by the refused INSERT, or both writes. *)
Lemma write_commit_notify_db env now w packageData packageId newStatus userId
    opts w' r :
  write_commit_notify env now w packageData packageId newStatus userId opts
    = (w', r) ->
  (w' = w ∧ r = Throw QueryError)
  ∨ (w' = after_nextval_package_tracking w ∧ r = Throw QueryError
     ∧ rejects env (INSERT_package_tracking
                      (make_trackingData packageId newStatus userId opts now))
       = true
     ∧ nextval_before_refusal env
         (INSERT_package_tracking
            (make_trackingData packageId newStatus userId opts now)) = true)
  ∨ db w' = COMMIT
      [SetStatus packageId newStatus
         (CURRENT_TIMESTAMP env (UPDATE_packages newStatus packageId));
       AddTracking (inserted_tracking_row (package_tracking_id_seq (db w) + 1)
                      (make_trackingData packageId newStatus userId opts now))]
      (nextval_package_tracking (db w)).1.
Proof.
  unfold write_commit_notify, query_UPDATE_packages, createTrackingRecord.
  destruct (rejects env (UPDATE_packages _ _)); simpl.
  { intros [= <- <-]. left. split; reflexivity. }
  destruct (rejects env (INSERT_package_tracking _)) eqn:Hrejects; simpl.
  { destruct (nextval_before_refusal env (INSERT_package_tracking _)) eqn:Hdrawn;
      intros [= <- <-].
    - right. left. repeat split; assumption.
    - left. by destruct w. }
  match goal with
  | |- context [sendStatusNotifications ?e ?c ?p ?s ?t] =>
      pose proof (sendStatusNotifications_db e c p s t) as Hdb;
      destruct (sendStatusNotifications e c p s t) as [w1 [[]|e1]]
  end; intros [= <- <-]; right; right; exact Hdb.
Qed.

Lemma select_package_Some d packageId packageData :
  select_package d packageId = Ok (Some packageData) ->
  ∃ p trip_id t sender_id u,
    packages d !! packageId = Some p ∧ p_trip_id p = Some trip_id
    ∧ trips d !! trip_id = Some t ∧ p_sender_id p = Some sender_id
    ∧ users d !! sender_id = Some u
    ∧ packageData = {| pd_id := packageId; pd_sender_id := Some sender_id;
                       pd_traveler_id := t_traveler_id t;
                       pd_title := p_title p; pd_status := p_status p |}.
Proof.
  unfold select_package. intros H.
  destruct (negb (int4 packageId)); [discriminate|]. injection H as H.
  destruct (packages d !! packageId) as [p|] eqn:Hp; [|discriminate]. simpl in H.
  destruct (p_trip_id p) as [trip_id|] eqn:Htrip; [|discriminate]. simpl in H.
  destruct (trips d !! trip_id) as [t|] eqn:Ht; [|discriminate]. simpl in H.
  destruct (p_sender_id p) as [sender_id|] eqn:Hsender; [|discriminate]. simpl in H.
  destruct (users d !! sender_id) as [u|] eqn:Hu; [|discriminate]. simpl in H.
  inversion H. exists p, trip_id, t, sender_id, u. repeat split; auto.
Qed.

Lemma select_package_int4 d packageId packageData :
  select_package d packageId = Ok (Some packageData) -> int4 packageId = true.
Proof.
  unfold select_package. by destruct (int4 packageId).
Qed.

(** Reading a package again after its status has been written. *)
Lemma select_package_with_status d d' packageId packageData newStatus updated_at :
  select_package d packageId = Ok (Some packageData) ->
  users d' = users d ->
  trips d' = trips d ->
  packages d' = alter (with_status newStatus updated_at) packageId (packages d) ->
  select_package d' packageId
  = Ok (Some {| pd_id := pd_id packageData;
                pd_sender_id := pd_sender_id packageData;
                pd_traveler_id := pd_traveler_id packageData;
                pd_title := pd_title packageData;
                pd_status := Some newStatus |}).
Proof.
  intros Hsel Husers Htrips Hpackages.
  pose proof (select_package_int4 _ _ _ Hsel) as Hint4.
  apply select_package_Some in Hsel
    as (p & trip_id & t & sender_id & us & Hp & Htrip & Ht & Hsender & Hus & ->).
  unfold select_package. rewrite Hint4, Husers, Htrips, Hpackages. simpl.
  rewrite lookup_alter_eq, Hp. simpl. rewrite Htrip. simpl.
  rewrite Ht. simpl. rewrite Hsender. simpl. rewrite Hus. reflexivity.
Qed.

(** ** Ordered reads *)

Lemma last_of_sorted (l l0 : list (tracking_row * user_row))
    (x : tracking_row * user_row) :
  Sorted created_before l ->
  l ≡ₚ l0 ++ [x] ->
  (∀ y, y ∈ l0 -> pt_created_at y.1 < pt_created_at x.1) ->
  last l = Some x.
Proof.
  intros Hsorted Hperm Hlater.
  destruct (last l) as [z|] eqn:Hlast.
  - apply last_Some in Hlast as [l' ->].
    apply Sorted_StronglySorted in Hsorted; [|apply _].
    assert (Hz : z ∈ l0 ++ [x]).
    { rewrite <- Hperm. apply elem_of_app. right. by apply list_elem_of_singleton. }
    assert (Hx : x ∈ l' ++ [z]).
    { rewrite Hperm. apply elem_of_app. right. by apply list_elem_of_singleton. }
    apply elem_of_app in Hz as [Hz|Hz%list_elem_of_singleton]; [|by subst].
    apply elem_of_app in Hx as [Hx|Hx%list_elem_of_singleton]; [|by subst].
    exfalso.
    pose proof (StronglySorted_app_1_elem_of _ _ _ x z Hsorted Hx) as Hle.
    specialize (Hlater z Hz). unfold created_before in Hle.
    assert (z ∈ [z]) as Hzz by (by apply list_elem_of_singleton).
    specialize (Hle Hzz). lia.
  - apply last_None in Hlast. subst l.
    symmetry in Hperm. apply Permutation_nil_r in Hperm.
    by destruct l0.
Qed.

Lemma omap_join_user_filter (d : database) (packageId : Z)
    (rows : list tracking_row) :
  (omap (join_user d) (filter (fun pt => pt_package_id pt = packageId) rows)).*1
  = filter (fun pt => pt_package_id pt = packageId
                      ∧ is_Some (users d !! pt_user_id pt)) rows.
Proof.
  induction rows as [|pt rows IH]; [reflexivity|].
  rewrite !filter_cons.
  destruct (decide (pt_package_id pt = packageId)) as [Hpkg|Hpkg].
  - simpl. unfold join_user at 1.
    destruct (users d !! pt_user_id pt) as [u|] eqn:Hu; simpl.
    + rewrite decide_True by (split; [exact Hpkg|by exists u]).
      f_equal. exact IH.
    + rewrite decide_False; [exact IH|].
      intros [_ [u Hsome]]. congruence.
  - rewrite decide_False by tauto. exact IH.
Qed.

Lemma omap_join_user_all (d : database) (rows : list tracking_row) :
  (∀ pt, pt ∈ rows -> is_Some (users d !! pt_user_id pt)) ->
  (omap (join_user d) rows).*1 = rows.
Proof.
  induction rows as [|pt rows IH]; intros Hall; [reflexivity|].
  simpl. unfold join_user at 1.
  destruct (Hall pt) as [u Hu]; [apply elem_of_cons; by left|].
  rewrite Hu. simpl.
  f_equal. apply IH. intros pt' Hin. apply Hall. apply elem_of_cons. by right.
Qed.

(** The rows come back ordered by [created_at], whatever the heap. *)
Lemma select_tracking_sorted env d packageId :
  Sorted created_before (select_tracking env d packageId).
Proof.
  unfold select_tracking.
  match goal with
  | |- Sorted _ (merge_sort ?R ?l) =>
      pose proof (Sorted_merge_sort R l) as Hsorted;
      induction Hsorted as [|x rows Hs IH Hhd]
  end; [constructor|].
  constructor; [exact IH|].
  destruct Hhd as [|y rows' Hxy]; constructor.
  unfold returned_before in Hxy. unfold created_before. lia.
Qed.

Lemma select_tracking_Permutation env d packageId :
  select_tracking env d packageId
  ≡ₚ omap (join_user d)
       (filter (fun pt => pt_package_id pt = packageId) (package_tracking d)).
Proof. unfold select_tracking. apply merge_sort_Permutation. Qed.

Lemma elem_of_select_tracking env d packageId pt u :
  (pt, u) ∈ select_tracking env d packageId
  ↔ pt ∈ package_tracking d ∧ pt_package_id pt = packageId
    ∧ users d !! pt_user_id pt = Some u.
Proof.
  unfold select_tracking. rewrite merge_sort_Permutation, list_elem_of_omap.
  split.
  - intros (pt' & Hin%list_elem_of_filter & Hjoin). unfold join_user in Hjoin.
    destruct (users d !! pt_user_id pt') as [u'|] eqn:Hu; [|discriminate].
    simpl in Hjoin. inversion Hjoin; subst. tauto.
  - intros (Hin & Hpkg & Hu). exists pt. split.
    + apply list_elem_of_filter. auto.
    + unfold join_user. by rewrite Hu.
Qed.

(** ** Who is permitted, and for what *)

Ltac case_newStatus :=
  repeat match goal with
  | |- context [if bool_decide (?s = PACKAGE_STATUS ?k) then _ else _] =>
      destruct (bool_decide_reflect (s = PACKAGE_STATUS k))
  end.

Lemma hasPermissionToUpdate_party packageData userId newStatus :
  hasPermissionToUpdate packageData userId newStatus = true ->
  pd_sender_id packageData = Some userId ∨ pd_traveler_id packageData = Some userId.
Proof.
  unfold hasPermissionToUpdate. cbv zeta. case_newStatus;
    rewrite ?orb_true_iff, ?bool_decide_eq_true; first [tauto | discriminate].
Qed.

Lemma hasPermissionToUpdate_message packageData userId newStatus :
  hasPermissionToUpdate packageData userId newStatus = true ->
  ∃ m, get_property STATUS_MESSAGES newStatus = Own m.
Proof.
  unfold hasPermissionToUpdate. cbv zeta. case_newStatus;
    first [discriminate | subst newStatus; intros _; eexists; reflexivity].
Qed.

(** ** Referential integrity *)

Lemma is_Some_lookup_alter (f : package_row -> package_row)
    (m : gmap Z package_row) (k i : Z) :
  is_Some (alter f k m !! i) ↔ is_Some (m !! i).
Proof.
  rewrite lookup_alter. case_decide; [|done]. subst. by rewrite fmap_is_Some.
Qed.

Lemma referential_integrity_transition d packageId newStatus updated_at id
    trackingData :
  referential_integrity d ->
  is_Some (packages d !! td_packageId trackingData) ->
  is_Some (users d !! td_userId trackingData) ->
  referential_integrity
    (COMMIT [SetStatus packageId newStatus updated_at;
             AddTracking (inserted_tracking_row id trackingData)]
       (nextval_package_tracking d).1).
Proof.
  intros (Htrips & Hpackages & Htracking & Hdisputes) Hpackage Huser.
  unfold referential_integrity. simpl. split; [exact Htrips|]. split; [|split].
  - intros i p Hlookup. rewrite lookup_alter in Hlookup.
    case_decide as Hi; [subst i|exact (Hpackages _ _ Hlookup)].
    apply fmap_Some in Hlookup as (p0 & Hp0 & ->).
    exact (Hpackages _ _ Hp0).
  - apply Forall_app. split.
    + eapply Forall_impl; [exact Htracking|].
      intros pt [Hp Hu]. split; [by apply is_Some_lookup_alter|exact Hu].
    + apply Forall_singleton. simpl. split; [by apply is_Some_lookup_alter|exact Huser].
  - eapply Forall_impl; [exact Hdisputes|].
    intros r [Hp Hu]. split; [by apply is_Some_lookup_alter|exact Hu].
Qed.

Lemma permitted_actor_is_user d packageId packageData userId newStatus :
  referential_integrity d ->
  select_package d packageId = Ok (Some packageData) ->
  hasPermissionToUpdate packageData userId newStatus = true ->
  is_Some (users d !! userId).
Proof.
  intros (Htrips & _) Hsel Hperm.
  apply select_package_Some in Hsel
    as (p & trip_id & t & sender_id & us & Hp & Htrip & Ht & Hsender & Hus & ->).
  apply hasPermissionToUpdate_party in Hperm as [[= ->] | Htraveler]; simpl in *.
  - by exists us.
  - specialize (Htrips _ _ Ht). simpl in Htrips. by rewrite Htraveler in Htrips.
Qed.

(** The references hold after every call of [updatePackageStatus], whatever
    its outcome. *)
(** Drawing a number from a sequence touches no row. *)
Lemma referential_integrity_nextval_package_tracking d :
  referential_integrity d ->
  referential_integrity (nextval_package_tracking d).1.
Proof. intros H. exact H. Qed.

Lemma referential_integrity_nextval_package_disputes d :
  referential_integrity d ->
  referential_integrity (nextval_package_disputes d).1.
Proof. intros H. exact H. Qed.

Lemma updatePackageStatus_referential_integrity env now w packageId newStatus
    userId opts w' r :
  updatePackageStatus env now w packageId newStatus userId opts = (w', r) ->
  referential_integrity (db w) ->
  referential_integrity (db w').
Proof.
  unfold updatePackageStatus. intros Hcall Hintegrity.
  destruct (load_and_validate _ _ _ _) as [packageData|] eqn:Hload.
  - apply load_and_validate_Ok in Hload as (Hsel & _ & Hperm).
    apply write_commit_notify_db in Hcall as [[-> _] | [[-> _] | ->]];
      [exact Hintegrity|exact Hintegrity|].
    apply referential_integrity_transition; [exact Hintegrity|..]; simpl.
    + apply select_package_Some in Hsel as (p & _ & _ & _ & _ & Hp & _). by exists p.
    + by eapply permitted_actor_is_user.
  - by inversion Hcall; subst.
Qed.

Lemma notifyDisputeCreated_db env w packageId disputeId reporterId reason :
  db (notifyDisputeCreated env w packageId disputeId reporterId reason) = db w.
Proof.
  unfold notifyDisputeCreated.
  destruct (io_initialized env), (emit_throws env (package_room packageId)),
    (emit_throws env admin_room); reflexivity.
Qed.

(** The references hold after every call of [createDispute], whatever its
    outcome. *)
Lemma createDispute_referential_integrity env now w packageId userId disputeData
    w' r :
  createDispute env now w packageId userId disputeData = (w', r) ->
  referential_integrity (db w) ->
  referential_integrity (db w').
Proof.
  unfold createDispute. intros Hcall Hintegrity.
  destruct (updatePackageStatus _ _ _ _ _ _ _) as [w1 [r1|e1]] eqn:Hupdate.
  - pose proof (updatePackageStatus_referential_integrity _ _ _ _ _ _ _ _ _
                  Hupdate Hintegrity) as Hintegrity1.
    unfold query_INSERT_package_disputes in Hcall.
    destruct (rejects env _).
    { destruct (nextval_before_refusal env _); by inversion Hcall; subst. }
    simpl in Hcall. inversion Hcall; subst. rewrite notifyDisputeCreated_db.
    unfold updatePackageStatus in Hupdate.
    destruct (load_and_validate _ _ _ _) as [packageData|] eqn:Hload;
      [|by inversion Hupdate].
    apply load_and_validate_Ok in Hload as (Hsel & _ & Hperm).
    pose proof (permitted_actor_is_user _ _ _ _ _ Hintegrity Hsel Hperm) as Huser.
    apply select_package_Some in Hsel as (p & _ & _ & _ & _ & Hp & _).
    apply write_commit_notify_Ok in Hupdate as (_ & _ & Hdb).
    destruct Hintegrity1 as (Htrips & Hpackages & Htracking & Hdisputes).
    unfold referential_integrity. simpl.
    split; [exact Htrips|]. split; [exact Hpackages|]. split; [exact Htracking|].
    apply Forall_app. split; [exact Hdisputes|].
    apply Forall_singleton. simpl. rewrite Hdb. simpl. split.
    + apply is_Some_lookup_alter. by exists p.
    + exact Huser.
  - inversion Hcall; subst.
    by eapply updatePackageStatus_referential_integrity.
Qed.

(** ** Round trip and history *)

(** C7, as the code has it.  After a successful [updatePackageStatus] to
    [newStatus], in a database whose references hold, reading the package
    gives the status [newStatus], and the history of the package, read by
    the actor, holds the record of this call, with the status [newStatus].
    The history is ordered by [created_at] alone: that record is its last
    element when the reading of the clock is later than the [created_at]
    of every record the package had before. *)
Theorem round_trip (env reading : environment) (now : Z) (w : world)
    (packageId : Z) (newStatus : string) (userId : Z) (opts : options)
    (w' : world) (r : update_result) :
  updatePackageStatus env now w packageId newStatus userId opts = (w', Ok r) ->
  referential_integrity (db w) ->
  p_status <$> packages (db w') !! packageId = Some (Some newStatus)
  ∧ (∃ packageData,
      select_package (db w') packageId = Ok (Some packageData)
      ∧ pd_status packageData = Some newStatus)
  ∧ (∃ history record,
      getPackageTracking reading (db w') packageId userId = Ok history
      ∧ record ∈ history
      ∧ tr_id record = ur_tracking_id r
      ∧ tr_status record = newStatus
      ∧ tr_timestamp record = now
      ∧ ((∀ pt, pt ∈ package_tracking (db w) -> pt_package_id pt = packageId ->
                pt_created_at pt < now) ->
         last history = Some record)).
Proof.
  unfold updatePackageStatus. intros Hcall Hintegrity.
  destruct (load_and_validate (db w) packageId newStatus userId)
    as [packageData|] eqn:Hload; [|by inversion Hcall].
  apply load_and_validate_Ok in Hload as (Hsel & _ & Hperm).
  destruct (permitted_actor_is_user _ _ _ _ _ Hintegrity Hsel Hperm) as [u Hu].
  pose proof (write_commit_notify_tracking_id _ _ _ _ _ _ _ _ _ _ Hcall) as Hid.
  apply write_commit_notify_Ok in Hcall as (_ & _ & Hdb).
  pose proof (select_package_int4 _ _ _ Hsel) as Hint4.
  split; [|split].
  - apply select_package_Some in Hsel as (p & _ & _ & _ & _ & Hp & _).
    rewrite Hdb. simpl. by rewrite lookup_alter_eq, Hp.
  - eexists. split.
    + eapply (select_package_with_status (db w) (db w')); [exact Hsel|..];
        rewrite Hdb; reflexivity.
    + reflexivity.
  - apply select_package_Some in Hsel
      as (p & trip_id & t & sender_id & us & Hp & Htrip & Ht & Hsender & Hus & ->).
    set (row := inserted_tracking_row (package_tracking_id_seq (db w) + 1)
                  (make_trackingData packageId newStatus userId opts now)) in *.
    exists (to_tracking_record <$> select_tracking reading (db w') packageId),
      (to_tracking_record (row, u)).
    split; [|split; [|split; [|split; [|split]]]].
    + unfold getPackageTracking, select_access. rewrite Hint4, Hdb. simpl.
      rewrite lookup_alter_eq, Hp. simpl. rewrite Htrip. simpl. rewrite Ht. simpl.
      rewrite Hsender.
      apply hasPermissionToUpdate_party in Hperm. simpl in Hperm.
      destruct Hperm as [Heq|Heq].
      * rewrite (bool_decide_eq_false_2 (Some userId ≠ Some sender_id)); [done|].
        intros Hne. by apply Hne.
      * rewrite (bool_decide_eq_false_2 (Some userId ≠ t_traveler_id t)).
        -- by rewrite andb_false_r.
        -- intros Hne. by apply Hne.
    + apply list_elem_of_fmap. exists (row, u). split; [reflexivity|].
      apply elem_of_select_tracking. rewrite Hdb. simpl.
      split; [|split; [reflexivity|exact Hu]].
      apply elem_of_app. right. by apply list_elem_of_singleton.
    + simpl. by rewrite Hid.
    + reflexivity.
    + reflexivity.
    + intros Hclock. rewrite fmap_last. apply fmap_Some. exists (row, u).
      split; [|reflexivity].
      apply (last_of_sorted _
               (omap (join_user (db w))
                  (filter (fun pt => pt_package_id pt = packageId)
                     (package_tracking (db w))))).
      * apply select_tracking_sorted.
      * rewrite select_tracking_Permutation.
        rewrite Hdb. simpl. rewrite filter_app, omap_app.
        rewrite filter_cons_True by reflexivity. rewrite filter_nil. simpl.
        unfold join_user at 2. simpl. rewrite Hu. reflexivity.
      * intros [pt upt] (pt' & Hin%list_elem_of_filter & Hjoin)%list_elem_of_omap.
        unfold join_user in Hjoin.
        destruct (users (db w) !! pt_user_id pt'); [|discriminate].
        inversion Hjoin; subst. simpl. apply Hclock; tauto.
Qed.

Lemma round_trip_witness :
  ∃ w' r,
    updatePackageStatus quiet 300 {| db := sample_history; emitted := [] |} 1
      "in_transit" 20 no_options = (w', Ok r)
    ∧ p_status <$> packages (db w') !! 1 = Some (Some "in_transit")
    ∧ (∃ history record,
         getPackageTracking newest_first (db w') 1 20 = Ok history
         ∧ last history = Some record
         ∧ tr_id record = 3
         ∧ tr_status record = "in_transit"
         ∧ tr_timestamp record = 300).
Proof.
  destruct (updatePackageStatus quiet 300 {| db := sample_history; emitted := [] |}
              1 "in_transit" 20 no_options) as [w' [r|e]] eqn:Hcall;
    [|vm_compute in Hcall; discriminate Hcall].
  exists w', r. split; [reflexivity|].
  destruct (round_trip quiet newest_first 300
              {| db := sample_history; emitted := [] |} 1 "in_transit" 20
              no_options w' r Hcall)
    as (Hstatus & _ & history & record & Hget & _ & Hid & Hst & Htime & Hlast).
  { apply (bool_decide_unpack _). vm_compute. exact I. }
  split; [exact Hstatus|].
  exists history, record. split; [exact Hget|]. split.
  - apply Hlast. intros pt Hin _. vm_compute in Hin.
    apply elem_of_cons in Hin as [-> | Hin]; [reflexivity|].
    apply elem_of_cons in Hin as [-> | Hin]; [reflexivity|].
    by apply elem_of_nil in Hin.
  - split; [|by split]. rewrite Hid.
    vm_compute in Hcall. by inversion Hcall.
Defined.

(** C7, as the claim states it, fails.  The traveler accepts package 1 and
    picks it up, and the clock shows 100 at both calls.  Both calls
    succeed and the status of the package is 'picked_up'; the two records
    have the same [created_at], the database returns the later one first,
    and the last element of the history is the 'accepted' record. *)
Lemma latest_record_is_not_last :
  succeeded accepted_at_100.2 = true
  ∧ succeeded picked_up_at_100.2 = true
  ∧ p_status <$> packages (db picked_up_at_100.1) !! 1
    = Some (Some (PACKAGE_STATUS PICKED_UP))
  ∧ pt_created_at <$> package_tracking (db picked_up_at_100.1) = [100; 100]
  ∧ ∃ history,
      history_at_100 = Ok history
      ∧ tr_status <$> history = [PACKAGE_STATUS PICKED_UP; PACKAGE_STATUS ACCEPTED]
      ∧ tr_status <$> last history = Some (PACKAGE_STATUS ACCEPTED)
      ∧ tr_status <$> last history ≠ Some (PACKAGE_STATUS PICKED_UP).
Proof.
  split; [vm_compute; reflexivity|]. split; [vm_compute; reflexivity|].
  split; [vm_compute; reflexivity|]. split; [vm_compute; reflexivity|].
  destruct history_at_100 as [history|e] eqn:Hget;
    [|vm_compute in Hget; discriminate Hget].
  exists history. split; [reflexivity|].
  vm_compute in Hget. injection Hget as <-.
  split; [reflexivity|]. split; [reflexivity|]. discriminate.
Qed.

(** C8, as the code has it.  For a package identifier within the range of
    the [id] column: when no package has it, or the package that has it has
    no trip, the call fails with 'Colis non trouvé' (NotFound); for a
    package with its trip, an actor who is neither the sender of the
    package nor the traveler of the trip gets 'Accès non autorisé à ce
    colis' (PermissionDenied), and the sender and the traveler get the
    history, oldest first: one element for each row that
    [package_tracking] holds for this package and whose author is a user,
    with the number, status, author, notes, location, photo and
    [created_at] of the row and the first and last name of its author;
    these are all of the package's rows when the references of the tables
    hold. *)
Theorem history_contract (env : environment) (d : database)
    (packageId userId : Z) :
  int4 packageId = true ->
  (packages d !! packageId = None ->
     getPackageTracking env d packageId userId = Throw ColisNonTrouve)
  ∧ (∀ p,
       packages d !! packageId = Some p ->
       p_trip_id p = None ∨ (∃ trip_id, p_trip_id p = Some trip_id
                                        ∧ trips d !! trip_id = None) ->
       getPackageTracking env d packageId userId = Throw ColisNonTrouve)
  ∧ (∀ p trip_id t,
       packages d !! packageId = Some p ->
       p_trip_id p = Some trip_id ->
       trips d !! trip_id = Some t ->
       (p_sender_id p ≠ Some userId -> t_traveler_id t ≠ Some userId ->
          getPackageTracking env d packageId userId = Throw AccesNonAutorise)
       ∧ (p_sender_id p = Some userId ∨ t_traveler_id t = Some userId ->
          ∃ (history : list tracking_record) (rows : list (tracking_row * user_row)),
            getPackageTracking env d packageId userId = Ok history
            ∧ history
              = (fun row : tracking_row * user_row =>
                   {| tr_id := pt_id row.1;
                      tr_status := pt_status row.1;
                      tr_statusInfo := get_property STATUS_MESSAGES (pt_status row.1);
                      tr_user_id := pt_user_id row.1;
                      tr_user_name := first_name row.2 +:+ " " +:+ last_name row.2;
                      tr_notes := pt_notes row.1;
                      tr_location := pt_location row.1;
                      tr_photoPath := pt_photo_path row.1;
                      tr_timestamp := pt_created_at row.1 |}) <$> rows
            ∧ Sorted Z.le (tr_timestamp <$> history)
            ∧ (∀ pt u, (pt, u) ∈ rows ↔
                 pt ∈ package_tracking d ∧ pt_package_id pt = packageId
                 ∧ users d !! pt_user_id pt = Some u)
            ∧ rows.*1 ≡ₚ filter (fun pt => pt_package_id pt = packageId
                                          ∧ is_Some (users d !! pt_user_id pt))
                           (package_tracking d)
            ∧ (referential_integrity d ->
               rows.*1 ≡ₚ filter (fun pt => pt_package_id pt = packageId)
                            (package_tracking d)))).
Proof.
  intros Hint4. split; [|split].
  - intros Hnone. unfold getPackageTracking, select_access.
    by rewrite Hint4, Hnone.
  - intros p Hp [Htrip | (trip_id & Htrip & Ht)];
      unfold getPackageTracking, select_access;
      rewrite Hint4, Hp; simpl; rewrite Htrip; simpl; [done|by rewrite Ht].
  - intros p trip_id t Hp Htrip Ht.
    assert (Haccess : select_access d packageId
                      = Ok (Some (p_sender_id p, t_traveler_id t))).
    { unfold select_access. rewrite Hint4, Hp. simpl. rewrite Htrip. simpl.
      by rewrite Ht. }
    unfold getPackageTracking. rewrite Haccess. split.
    + intros Hs Hc.
      rewrite (bool_decide_eq_true_2 (Some userId ≠ p_sender_id p)) by congruence.
      rewrite (bool_decide_eq_true_2 (Some userId ≠ t_traveler_id t)) by congruence.
      reflexivity.
    + intros Hparty.
      exists (to_tracking_record <$> select_tracking env d packageId),
        (select_tracking env d packageId).
      pose proof (select_tracking_sorted env d packageId) as Hsorted.
      split; [|split; [|split; [|split; [|split]]]].
      * destruct Hparty as [Heq | Heq]; rewrite Heq.
        -- by rewrite (bool_decide_eq_false_2 (Some userId ≠ Some userId)) by tauto.
        -- rewrite (bool_decide_eq_false_2 (Some userId ≠ Some userId)) by tauto.
           by rewrite andb_false_r.
      * reflexivity.
      * rewrite <- list_fmap_compose.
        clear -Hsorted. induction Hsorted as [|x l Hs IH Hhd]; [constructor|].
        simpl. constructor; [exact IH|].
        destruct Hhd; simpl; constructor. assumption.
      * intros pt u. apply elem_of_select_tracking.
      * by rewrite select_tracking_Permutation, omap_join_user_filter.
      * intros (_ & _ & Htracking & _).
        rewrite select_tracking_Permutation, omap_join_user_all; [reflexivity|].
        intros pt [Hpkg Hin]%list_elem_of_filter.
        rewrite Forall_forall in Htracking. by apply Htracking.
Qed.

Lemma history_contract_witness :
  getPackageTracking quiet sample_history 2 10 = Throw ColisNonTrouve
  ∧ getPackageTracking quiet sample_history 1 30 = Throw AccesNonAutorise
  ∧ (∃ history,
       getPackageTracking quiet sample_history 1 10 = Ok history
       ∧ Sorted Z.le (tr_timestamp <$> history)
       ∧ tr_id <$> history ≡ₚ pt_id <$> package_tracking sample_history)
  ∧ (∃ history,
       getPackageTracking quiet sample_history 1 20 = Ok history
       ∧ Sorted Z.le (tr_timestamp <$> history)
       ∧ tr_id <$> history ≡ₚ pt_id <$> package_tracking sample_history).
Proof.
  assert (Hp : packages sample_history !! 1
               = Some {| p_sender_id := Some 10; p_trip_id := Some 5;
                         p_title := "Documents"; p_status := Some "picked_up";
                         p_updated_at := 0 |})
    by (vm_compute; reflexivity).
  assert (Ht : trips sample_history !! 5 = Some {| t_traveler_id := Some 20 |})
    by (vm_compute; reflexivity).
  assert (Hintegrity : referential_integrity sample_history)
    by (apply (bool_decide_unpack _); vm_compute; exact I).
  split; [|split; [|split]].
  - apply (history_contract quiet sample_history 2 10 eq_refl).
    vm_compute. reflexivity.
  - apply (proj2 (proj2 (history_contract quiet sample_history 1 30 eq_refl))
             _ _ _ Hp eq_refl Ht); discriminate.
  - destruct (proj2 (proj2 (proj2 (history_contract quiet sample_history 1 10
                                     eq_refl)) _ _ _ Hp eq_refl Ht)
                (or_introl eq_refl))
      as (history & rows & Hget & Hhistory & Hsorted & _ & _ & Hperm).
    exists history. split; [exact Hget|]. split; [exact Hsorted|].
    rewrite Hhistory, <- list_fmap_compose.
    rewrite <- (Hperm Hintegrity), <- list_fmap_compose. reflexivity.
  - destruct (proj2 (proj2 (proj2 (history_contract quiet sample_history 1 20
                                     eq_refl)) _ _ _ Hp eq_refl Ht)
                (or_intror eq_refl))
      as (history & rows & Hget & Hhistory & Hsorted & _ & _ & Hperm).
    exists history. split; [exact Hget|]. split; [exact Hsorted|].
    rewrite Hhistory, <- list_fmap_compose.
    rewrite <- (Hperm Hintegrity), <- list_fmap_compose. reflexivity.
Defined.

(** C8, as the claim states it, fails.  No package has the identifier
    2147483648, and the call does not fail with NotFound: the number lies
    beyond the range of the [id] column, the database refuses the first
    query, and its error reaches the caller. *)
Lemma history_of_identifier_beyond_int4 :
  packages sample_history !! 2147483648 = None
  ∧ history_beyond_int4 = Throw QueryError
  ∧ history_beyond_int4 ≠ Throw ColisNonTrouve
  ∧ kind_of QueryError = PersistenceFailure
  ∧ kind_of QueryError ≠ NotFound.
Proof.
  split; [vm_compute; reflexivity|].
  assert (Hget : history_beyond_int4 = Throw QueryError) by (vm_compute; reflexivity).
  split; [exact Hget|]. split; [rewrite Hget; discriminate|].
  split; [reflexivity|discriminate].
Qed.

(** The two records of the sample history come back oldest first. *)
Example history_is_sorted :
  match getPackageTracking quiet sample_history 1 10 with
  | Ok history => tr_status <$> history
  | Throw _ => []
  end = ["accepted"; "picked_up"].
Proof. vm_compute. reflexivity. Qed.

(** ** Dispute sub-flow *)

Lemma createDispute_insert_refused env now w packageId userId disputeData w1 r :
  updatePackageStatus env now w packageId (PACKAGE_STATUS DISPUTED) userId
    {| notes := Some ("Litige déclaré: " +:+ dd_reason disputeData);
       location := None; photoPath := None |} = (w1, Ok r) ->
  rejects env (INSERT_package_disputes packageId userId disputeData) = true ->
  ∃ w',
    createDispute env now w packageId userId disputeData = (w', Throw QueryError)
    ∧ (w' = w1 ∨ w' = after_nextval_package_disputes w1)
    ∧ p_status <$> packages (db w') !! packageId
      = Some (Some (PACKAGE_STATUS DISPUTED))
    ∧ package_disputes (db w') = package_disputes (db w).
Proof.
  intros Hupdate Hrejects.
  assert (Hw1 : p_status <$> packages (db w1) !! packageId
                = Some (Some (PACKAGE_STATUS DISPUTED))
                ∧ package_disputes (db w1) = package_disputes (db w)).
  { unfold updatePackageStatus in Hupdate.
    destruct (load_and_validate _ _ _ _) as [packageData|] eqn:Hload;
      [|by inversion Hupdate].
    apply load_and_validate_Ok in Hload as (Hsel & _ & _).
    apply select_package_Some in Hsel as (p & _ & _ & _ & _ & Hp & _).
    apply write_commit_notify_Ok in Hupdate as (_ & _ & Hdb).
    rewrite Hdb. simpl. by rewrite lookup_alter_eq, Hp. }
  unfold createDispute. rewrite Hupdate.
  unfold query_INSERT_package_disputes. rewrite Hrejects.
  destruct (nextval_before_refusal env _); eexists; (split; [reflexivity|]).
  - split; [by right|exact Hw1].
  - split; [left; by destruct w1|exact Hw1].
Qed.

(** C1. Dispute atomicity, at a failing input.  Package 1 is in status
    'accepted' and its sender files a dispute while the database refuses
    the insertion into [package_disputes]: [createDispute] throws, no
    dispute row exists, and the stored status is 'disputed', with a
    'disputed' record in the history.  The transition was committed on the
    client of [updatePackageStatus]; the [ROLLBACK] of [createDispute] acts
    on another client. *)
Theorem dispute_write_failure_keeps_DISPUTED :
  p_status <$> packages (sample_database (Some "accepted")) !! 1
    = Some (Some "accepted")
  ∧ refused_dispute.2 = Throw QueryError
  ∧ package_disputes (db refused_dispute.1) = []
  ∧ p_status <$> packages (db refused_dispute.1) !! 1
    = Some (Some (PACKAGE_STATUS DISPUTED))
  ∧ pt_status <$> package_tracking (db refused_dispute.1)
    = [PACKAGE_STATUS DISPUTED].
Proof. vm_compute. repeat split; reflexivity. Qed.

(** ** Notification fan-out *)

Lemma notification_failure_keeps_commit env now w packageData packageId newStatus
    userId opts w' :
  write_commit_notify env now w packageData packageId newStatus userId opts
    = (w', Throw EmitError) ->
  db w' = COMMIT
      [SetStatus packageId newStatus
         (CURRENT_TIMESTAMP env (UPDATE_packages newStatus packageId));
       AddTracking (inserted_tracking_row (package_tracking_id_seq (db w) + 1)
                      (make_trackingData packageId newStatus userId opts now))]
      (nextval_package_tracking (db w)).1.
Proof.
  unfold write_commit_notify, query_UPDATE_packages, createTrackingRecord.
  destruct (rejects env (UPDATE_packages _ _)); simpl; [discriminate|].
  destruct (rejects env (INSERT_package_tracking _)); simpl.
  { destruct (nextval_before_refusal env _); discriminate. }
  match goal with
  | |- context [sendStatusNotifications ?e ?c ?p ?s ?t] =>
      pose proof (sendStatusNotifications_db e c p s t) as Hdb;
      destruct (sendStatusNotifications e c p s t) as [w1 [[]|e1]]
  end; [discriminate|].
  intros H; inversion H; subst. simpl in Hdb. auto.
Qed.

(** C2. Notification failure, at a failing input.  Package 1 is in status
    'requested' and its traveler accepts it while the emission to the
    sender's room raises: the status 'accepted' and its history record are
    committed and stay so, but [updatePackageStatus] does not return: it
    throws the error of the emission to its caller.  The same happens to
    [createDispute], which calls it. *)
Theorem notification_failure_reaches_caller :
  load_and_validate (sample_database (Some "requested")) 1
    (PACKAGE_STATUS ACCEPTED) 20
    = Ok {| pd_id := 1; pd_sender_id := Some 10; pd_traveler_id := Some 20;
            pd_title := "Documents"; pd_status := Some "requested" |}
  ∧ unheard_acceptance.2 = Throw EmitError
  ∧ kind_of EmitError = NotificationFailure
  ∧ p_status <$> packages (db unheard_acceptance.1) !! 1
    = Some (Some (PACKAGE_STATUS ACCEPTED))
  ∧ pt_status <$> package_tracking (db unheard_acceptance.1)
    = [PACKAGE_STATUS ACCEPTED]
  ∧ unheard_dispute.2 = Throw EmitError
  ∧ p_status <$> packages (db unheard_dispute.1) !! 1
    = Some (Some (PACKAGE_STATUS DISPUTED))
  ∧ package_disputes (db unheard_dispute.1) = [].
Proof. vm_compute. repeat split; reflexivity. Qed.

(** ** Two calls in flight *)

Lemma no_error_is_Conflict (e : error) : kind_of e ≠ Conflict.
Proof. destruct e; discriminate. Qed.

(** A database that refuses nothing and emissions that all go through. *)
Section NothingFails.

Variable env : environment.
Hypothesis rejects_nothing : ∀ s, rejects env s = false.
Hypothesis emits_quietly : ∀ r, emit_throws env r = false.

Lemma sendSystemNotification_Ok w userId n :
  (sendSystemNotification env w userId n).2 = Ok tt.
Proof.
  unfold sendSystemNotification. rewrite emits_quietly.
  by destruct (io_initialized env).
Qed.

Lemma sendStatusNotifications_Ok w packageData newStatus trackingData m :
  get_property STATUS_MESSAGES newStatus = Own m ->
  (sendStatusNotifications env w packageData newStatus trackingData).2 = Ok tt.
Proof.
  intros Hm. unfold sendStatusNotifications, status_notification.
  rewrite Hm.
  match goal with
  | |- context [sendSystemNotification env w ?u ?n] =>
      pose proof (sendSystemNotification_Ok w u n) as Hs;
      destruct (sendSystemNotification env w u n) as [w1 r1]
  end.
  simpl in Hs. subst r1.
  destruct (bool_decide _); simpl.
  - destruct (pd_traveler_id packageData); [|done].
    destruct (_ && _); [|done]. by apply sendSystemNotification_Ok.
  - destruct (pd_traveler_id packageData); [|done].
    destruct (_ && _); [|done]. by apply sendSystemNotification_Ok.
Qed.

Lemma write_commit_notify_succeeds now w packageData packageId newStatus
    userId opts m :
  get_property STATUS_MESSAGES newStatus = Own m ->
  ∃ w' r,
    write_commit_notify env now w packageData packageId newStatus userId opts
      = (w', Ok r).
Proof.
  intros Hm.
  unfold write_commit_notify, query_UPDATE_packages, createTrackingRecord.
  rewrite !rejects_nothing. simpl.
  match goal with
  | |- context [sendStatusNotifications ?e ?c ?p ?s ?t] =>
      pose proof (sendStatusNotifications_Ok c p s t m Hm) as Hs;
      destruct (sendStatusNotifications e c p s t) as [w1 r1]
  end.
  simpl in Hs. subst r1. eauto.
Qed.

(** C9, as the code has it.  Calls on one package are not serialized and
    no exception of the service is a Conflict: when two calls have both
    read and checked the package before either writes, and the database
    refuses nothing and no emission raises, both calls succeed; the stored
    status is the target of the call that wrote last, and the history
    gains the records of both. *)
Theorem overlapping_updates_both_succeed (w : world) (a b : request)
    (data_a data_b : package_data) :
  rq_packageId a = rq_packageId b ->
  load_and_validate (db w) (rq_packageId a) (rq_newStatus a) (rq_userId a)
    = Ok data_a ->
  load_and_validate (db w) (rq_packageId b) (rq_newStatus b) (rq_userId b)
    = Ok data_b ->
  (∀ e, kind_of e ≠ Conflict)
  ∧ ∃ w' result_a result_b,
      updatePackageStatus_overlapping env w a b = (w', Ok result_a, Ok result_b)
      ∧ p_status <$> packages (db w') !! rq_packageId a
        = Some (Some (rq_newStatus b))
      ∧ package_tracking (db w')
        = package_tracking (db w) ++
          [ inserted_tracking_row (package_tracking_id_seq (db w) + 1)
              (make_trackingData (rq_packageId a) (rq_newStatus a) (rq_userId a)
                 (rq_options a) (rq_now a));
            inserted_tracking_row (package_tracking_id_seq (db w) + 2)
              (make_trackingData (rq_packageId b) (rq_newStatus b) (rq_userId b)
                 (rq_options b) (rq_now b)) ].
Proof.
  intros Hsame Ha Hb.
  split; [apply no_error_is_Conflict|].
  unfold updatePackageStatus_overlapping. rewrite Ha, Hb.
  apply load_and_validate_Ok in Ha as (Hsel & _ & Hperm_a).
  apply load_and_validate_Ok in Hb as (_ & _ & Hperm_b).
  apply hasPermissionToUpdate_message in Hperm_a as [ma Hma].
  apply hasPermissionToUpdate_message in Hperm_b as [mb Hmb].
  destruct (write_commit_notify_succeeds (rq_now a) w data_a (rq_packageId a)
              (rq_newStatus a) (rq_userId a) (rq_options a) ma Hma)
    as (w1 & ra & Hwa).
  rewrite Hwa.
  destruct (write_commit_notify_succeeds (rq_now b) w1 data_b (rq_packageId b)
              (rq_newStatus b) (rq_userId b) (rq_options b) mb Hmb)
    as (w2 & rb & Hwb).
  rewrite Hwb.
  exists w2, ra, rb. split; [reflexivity|].
  apply write_commit_notify_Ok in Hwa as (_ & _ & Hdb1).
  apply write_commit_notify_Ok in Hwb as (_ & _ & Hdb2).
  apply select_package_Some in Hsel as (p & _ & _ & _ & _ & Hp & _).
  rewrite Hdb2, Hdb1. simpl. split.
  - rewrite <- Hsame. rewrite !lookup_alter_eq, Hp. reflexivity.
  - rewrite <- app_assoc. simpl. do 4 f_equal. lia.
Qed.

End NothingFails.

Lemma overlapping_updates_both_succeed_witness :
  (∀ e, kind_of e ≠ Conflict)
  ∧ ∃ w' result_a result_b,
      updatePackageStatus_overlapping quiet (sample_world (Some "accepted"))
        traveler_picks_up sender_disputes = (w', Ok result_a, Ok result_b)
      ∧ p_status <$> packages (db w') !! 1 = Some (Some "disputed")
      ∧ package_tracking (db w')
        = [ inserted_tracking_row 1
              (make_trackingData 1 "picked_up" 20 no_options 100);
            inserted_tracking_row 2
              (make_trackingData 1 "disputed" 10 no_options 101) ].
Proof.
  apply (overlapping_updates_both_succeed quiet (fun _ => eq_refl)
           (fun _ => eq_refl) (sample_world (Some "accepted"))
           traveler_picks_up sender_disputes
           {| pd_id := 1; pd_sender_id := Some 10; pd_traveler_id := Some 20;
              pd_title := "Documents"; pd_status := Some "accepted" |}
           {| pd_id := 1; pd_sender_id := Some 10; pd_traveler_id := Some 20;
              pd_title := "Documents"; pd_status := Some "accepted" |});
    first [reflexivity | vm_compute; reflexivity].
Defined.

(** C9, as the specification states it, fails.  Package 1 is in status
    'accepted'; the traveler's PICKED_UP and the sender's DISPUTED are both
    valid next states and both calls read 'accepted' before either writes.
    Both succeed: the outcome is not one success and one Conflict. *)
Lemma overlapping_updates_not_serialized :
  rq_newStatus traveler_picks_up ≠ rq_newStatus sender_disputes
  ∧ isTransitionAllowed (JString "accepted") (rq_newStatus traveler_picks_up)
    = Ok true
  ∧ isTransitionAllowed (JString "accepted") (rq_newStatus sender_disputes)
    = Ok true
  ∧ succeeded overlapping_outcome.1.2 = true
  ∧ succeeded overlapping_outcome.2 = true
  ∧ p_status <$> packages (db overlapping_outcome.1.1) !! 1
    = Some (Some (PACKAGE_STATUS DISPUTED))
  ∧ pt_status <$> package_tracking (db overlapping_outcome.1.1)
    = [PACKAGE_STATUS PICKED_UP; PACKAGE_STATUS DISPUTED]
  ∧ ¬ one_success_one_Conflict overlapping_outcome.1.2 overlapping_outcome.2.
Proof.
  assert (Ha : succeeded overlapping_outcome.1.2 = true) by (vm_compute; reflexivity).
  assert (Hb : succeeded overlapping_outcome.2 = true) by (vm_compute; reflexivity).
  split; [discriminate|].
  split; [vm_compute; reflexivity|].
  split; [vm_compute; reflexivity|].
  split; [exact Ha|]. split; [exact Hb|].
  split; [vm_compute; reflexivity|].
  split; [vm_compute; reflexivity|].
  intros [[_ (e & He & _)] | [_ (e & He & _)]].
  - rewrite He in Hb. discriminate Hb.
  - rewrite He in Ha. discriminate Ha.
Qed.

(** ** Scenarios of the specification (section 8) *)

Lemma REQUESTED_is_never_permitted packageData userId :
  hasPermissionToUpdate packageData userId (PACKAGE_STATUS REQUESTED) = false.
Proof. reflexivity. Qed.

(** Scenario A: from REQUESTED the carrier applies ACCEPTED and the history
    has one record; the sender then asks for ACCEPTED again and gets
    InvalidTransition. *)
Example scenario_A :
  match updatePackageStatus quiet 100 (sample_world (Some "requested")) 1
          "accepted" 20 no_options with
  | (w1, Ok _) =>
      pt_status <$> package_tracking (db w1) = ["accepted"]
      ∧ (updatePackageStatus quiet 200 w1 1 "accepted" 10 no_options).2
        = Throw (TransitionNonAutorisee (JString "accepted") "accepted")
  | (_, Throw _) => False
  end.
Proof. vm_compute. split; reflexivity. Qed.

(** Scenario B: from IN_TRANSIT the sender cannot reach DELIVERED. *)
Example scenario_B :
  (updatePackageStatus quiet 100 (sample_world (Some "in_transit")) 1
     "delivered" 10 no_options).2
  = Throw (TransitionNonAutorisee (JString "in_transit") "delivered").
Proof. vm_compute. reflexivity. Qed.

(** Scenario C: from ARRIVED the sender applies DELIVERED; the carrier can
    then go nowhere but to DISPUTED. *)
Example scenario_C :
  match updatePackageStatus quiet 100 (sample_world (Some "arrived")) 1
          "delivered" 10 no_options with
  | (w1, Ok _) =>
      p_status <$> packages (db w1) !! 1 = Some (Some "delivered")
      ∧ (updatePackageStatus quiet 200 w1 1 "arrived" 20 no_options).2
        = Throw (TransitionNonAutorisee (JString "delivered") "arrived")
      ∧ succeeded (updatePackageStatus quiet 200 w1 1 "disputed" 20 no_options).2
        = true
  | (_, Throw _) => False
  end.
Proof. vm_compute. repeat split; reflexivity. Qed.

(** Scenario D: a dispute filed by the sender makes the status DISPUTED,
    stores one open dispute, and no further transition is accepted. *)
Example scenario_D :
  match createDispute quiet 100 (sample_world (Some "picked_up")) 1 10
          sample_dispute with
  | (w1, Ok r) =>
      p_status <$> packages (db w1) !! 1 = Some (Some "disputed")
      ∧ (d_status <$> package_disputes (db w1)) = ["open"]
      ∧ dr_disputeId r = 1
      ∧ (updatePackageStatus quiet 200 w1 1 "delivered" 10 no_options).2
        = Throw (TransitionNonAutorisee (JString "disputed") "delivered")
  | (_, Throw _) => False
  end.
Proof. vm_compute. repeat split; reflexivity. Qed.

(** * Further properties of the tracking service *)

(** ** What a call can and cannot do *)

Lemma hasPermissionToUpdate_token packageData userId newStatus :
  hasPermissionToUpdate packageData userId newStatus = true ->
  ∃ k, newStatus = PACKAGE_STATUS k ∧ k ≠ REQUESTED.
Proof.
  unfold hasPermissionToUpdate. cbv zeta. case_newStatus;
    first [discriminate | intros _; eexists; split; [eassumption|discriminate]].
Qed.

Lemma isTransitionAllowed_from_token (s : status_name) (newStatus : string) :
  isTransitionAllowed (JString (PACKAGE_STATUS s)) newStatus = Ok true ->
  newStatus ∈ PACKAGE_STATUS <$> transition_graph s.
Proof.
  unfold isTransitionAllowed.
  rewrite truthy_PACKAGE_STATUS, ALLOWED_TRANSITIONS_lookup. simpl.
  unfold includes. rewrite orb_false_r. intros [= H].
  by apply bool_decide_eq_true in H.
Qed.

(** X1. Soundness of the engine: a call that succeeds was made by the sender or
    the traveler of the package, towards one of the six tokens other than
    'requested', along an edge of the transition graph when the stored
    status was a token, and the database accepted both writes. *)
Theorem successful_update_is_sound (env : environment) (now : Z) (w : world)
    (packageId : Z) (newStatus : string) (userId : Z) (opts : options)
    (w' : world) (r : update_result) :
  updatePackageStatus env now w packageId newStatus userId opts = (w', Ok r) ->
  ∃ packageData,
    select_package (db w) packageId = Ok (Some packageData)
    ∧ (pd_sender_id packageData = Some userId
       ∨ pd_traveler_id packageData = Some userId)
    ∧ (∃ k, newStatus = PACKAGE_STATUS k ∧ k ≠ REQUESTED)
    ∧ (∀ s, pd_status packageData = Some (PACKAGE_STATUS s) ->
            newStatus ∈ PACKAGE_STATUS <$> transition_graph s)
    ∧ rejects env (UPDATE_packages newStatus packageId) = false
    ∧ rejects env (INSERT_package_tracking
                     (make_trackingData packageId newStatus userId opts now))
      = false.
Proof.
  unfold updatePackageStatus. intros Hcall.
  destruct (load_and_validate (db w) packageId newStatus userId)
    as [packageData|] eqn:Hload; [|by inversion Hcall].
  apply load_and_validate_Ok in Hload as (Hsel & Hallowed & Hperm).
  apply write_commit_notify_Ok in Hcall as (Hupdate & Hinsert & _).
  exists packageData. split; [exact Hsel|].
  split; [by eapply hasPermissionToUpdate_party|].
  split; [by eapply hasPermissionToUpdate_token|].
  split; [|by split].
  intros s Hs. rewrite Hs in Hallowed. simpl in Hallowed.
  by apply isTransitionAllowed_from_token.
Qed.

Lemma successful_update_is_sound_witness :
  ∃ packageData,
    select_package (sample_database (Some "arrived")) 1 = Ok (Some packageData)
    ∧ (pd_sender_id packageData = Some 10 ∨ pd_traveler_id packageData = Some 10)
    ∧ (∃ k, "delivered" = PACKAGE_STATUS k ∧ k ≠ REQUESTED)
    ∧ (∀ s, pd_status packageData = Some (PACKAGE_STATUS s) ->
            "delivered" ∈ PACKAGE_STATUS <$> transition_graph s)
    ∧ rejects quiet (UPDATE_packages "delivered" 1) = false
    ∧ rejects quiet (INSERT_package_tracking
                       (make_trackingData 1 "delivered" 10 no_options 100))
      = false.
Proof.
  destruct (updatePackageStatus quiet 100 (sample_world (Some "arrived")) 1
              "delivered" 10 no_options) as [w' [r|e]] eqn:Hcall;
    [|vm_compute in Hcall; discriminate Hcall].
  exact (successful_update_is_sound quiet 100 (sample_world (Some "arrived")) 1
           "delivered" 10 no_options w' r Hcall).
Defined.

(** The sequence value and the row a successful call adds to the history. *)
Lemma COMMIT_transition d packageId newStatus updated_at row :
  let d' := COMMIT [SetStatus packageId newStatus updated_at; AddTracking row]
              (nextval_package_tracking d).1 in
  users d' = users d
  ∧ trips d' = trips d
  ∧ packages d' = alter (with_status newStatus updated_at) packageId (packages d)
  ∧ package_tracking d' = package_tracking d ++ [row]
  ∧ package_disputes d' = package_disputes d
  ∧ package_tracking_id_seq d' = package_tracking_id_seq d + 1
  ∧ package_disputes_id_seq d' = package_disputes_id_seq d.
Proof. repeat split. Qed.



(** ** Who hears of a transition *)

Lemma sendSystemNotification_emitted env w userId n :
  emitted (sendSystemNotification env w userId n).1 = emitted w
  ∨ ((sendSystemNotification env w userId n).2 = Ok tt
     ∧ io_initialized env = true
     ∧ emitted (sendSystemNotification env w userId n).1
       = emitted w ++ [(user_room userId, n)]).
Proof.
  unfold sendSystemNotification.
  destruct (io_initialized env), (emit_throws env (user_room userId)); simpl; auto.
Qed.

(** X3. The fan-out of a status change: at most two events, each to the room of
    the sender or of the traveler of the package, never to the room of the
    acting user, and nothing that was emitted before is lost. *)
Theorem status_notifications_spare_the_actor (env : environment) (w : world)
    (packageData : package_data) (newStatus : string)
    (trackingData : tracking_data) :
  ∃ new,
    emitted (sendStatusNotifications env w packageData newStatus trackingData).1
    = emitted w ++ new
    ∧ (length new ≤ 2)%nat
    ∧ Forall
        (fun e : room * event =>
           (e.1 = user_room (pd_sender_id packageData)
            ∨ e.1 = user_room (pd_traveler_id packageData))
           ∧ e.1 ≠ user_room (Some (td_userId trackingData)))
        new.
Proof.
  destruct packageData as [id sender traveler ttl status].
  unfold sendStatusNotifications, sendSystemNotification. simpl.
  destruct (status_notification _ newStatus) as [n|e];
    destruct (bool_decide_reflect (sender ≠ Some (td_userId trackingData)))
      as [Hsender|Hsender];
    destruct traveler as [traveler_id|];
    try destruct (negb (traveler_id =? 0));
    try destruct (bool_decide_reflect (traveler_id ≠ td_userId trackingData))
      as [Htraveler|Htraveler];
    destruct (io_initialized env);
    try destruct (emit_throws env (user_room sender));
    try destruct (emit_throws env (user_room (Some traveler_id)));
    simpl;
    first [ exists []; split; [by rewrite app_nil_r|]
          | eexists; split; [reflexivity|]
          | eexists; split; [by rewrite <- app_assoc|] ];
    (split; [simpl; lia|]);
    repeat (apply Forall_cons; split; [simpl; split; [tauto|congruence]|]);
    apply Forall_nil; exact I.
Qed.

(** X4. The fan-out stops at the first emission that raises: when the sender
    is to be told and the emission to the sender's room raises, the call
    throws and nothing is emitted, so that the traveler is not told
    either. *)
Theorem failed_emission_to_sender_silences_traveler (env : environment)
    (w : world) (packageData : package_data) (newStatus : string)
    (trackingData : tracking_data) (m : status_message) :
  io_initialized env = true ->
  get_property STATUS_MESSAGES newStatus = Own m ->
  pd_sender_id packageData ≠ Some (td_userId trackingData) ->
  emit_throws env (user_room (pd_sender_id packageData)) = true ->
  sendStatusNotifications env w packageData newStatus trackingData
  = (w, Throw EmitError).
Proof.
  intros Hio Hm Hsender Hthrows.
  unfold sendStatusNotifications, status_notification, sendSystemNotification.
  rewrite Hm, Hio, Hthrows. simpl.
  by rewrite (bool_decide_eq_true_2 _ Hsender).
Qed.

Lemma failed_emission_to_sender_silences_traveler_witness :
  sendStatusNotifications sender_room_broken (sample_world (Some "picked_up"))
    {| pd_id := 1; pd_sender_id := Some 10; pd_traveler_id := Some 20;
       pd_title := "Documents"; pd_status := Some "picked_up" |}
    "disputed" (make_trackingData 1 "disputed" 30 no_options 100)
  = (sample_world (Some "picked_up"), Throw EmitError).
Proof.
  apply (failed_emission_to_sender_silences_traveler sender_room_broken _ _ _ _
           {| icon := "⚠️"; title := "Litige déclaré";
              description := "Un problème a été signalé pour ce colis" |});
    first [reflexivity | discriminate].
Defined.

Lemma sendStatusNotifications_without_io env w packageData newStatus trackingData :
  io_initialized env = false ->
  (sendStatusNotifications env w packageData newStatus trackingData).1 = w
  ∧ (sendStatusNotifications env w packageData newStatus trackingData).2
    ≠ Throw EmitError.
Proof.
  intros Hio. unfold sendStatusNotifications, sendSystemNotification.
  rewrite Hio. simpl.
  destruct (status_notification packageData newStatus) as [n|e] eqn:Hn;
    [|apply status_notification_Throw in Hn as ->];
    destruct (bool_decide _); simpl;
    destruct (pd_traveler_id packageData); try destruct (_ && _); by split.
Qed.

(** X5. Without Socket.IO ([socketService.io] not initialised) a call emits
    nothing and never fails because of a notification, be it
    [updatePackageStatus] or [createDispute]. *)
Theorem nothing_is_emitted_without_io (env : environment) (now : Z) (w : world)
    (packageId : Z) (newStatus : string) (userId : Z) (opts : options)
    (disputeData : dispute_data) :
  io_initialized env = false ->
  emitted (updatePackageStatus env now w packageId newStatus userId opts).1
    = emitted w
  ∧ (updatePackageStatus env now w packageId newStatus userId opts).2
    ≠ Throw EmitError
  ∧ emitted (createDispute env now w packageId userId disputeData).1 = emitted w
  ∧ (createDispute env now w packageId userId disputeData).2 ≠ Throw EmitError.
Proof.
  intros Hio.
  assert (Hupdate : ∀ s o,
            emitted (updatePackageStatus env now w packageId s userId o).1
              = emitted w
            ∧ (updatePackageStatus env now w packageId s userId o).2
              ≠ Throw EmitError).
  { intros s o. unfold updatePackageStatus.
    destruct (load_and_validate (db w) packageId s userId) as [packageData|e] eqn:Hload.
    - unfold write_commit_notify, query_UPDATE_packages, createTrackingRecord.
      destruct (rejects env (UPDATE_packages _ _)); simpl; [by split|].
      destruct (rejects env (INSERT_package_tracking _)); simpl; [by split|].
      match goal with
      | |- context [sendStatusNotifications ?e ?c ?p ?s ?t] =>
          destruct (sendStatusNotifications_without_io e c p s t Hio) as [Hw Hr];
          destruct (sendStatusNotifications e c p s t) as [w1 [[]|e1]]
      end; simpl in *; subst w1; simpl;
        (split; [reflexivity|first [discriminate | intros [= ->]; by apply Hr]]).
    - simpl. split; [done|]. intros [= ->].
      apply load_and_validate_Throw_kind in Hload.
      simpl in Hload. by destruct Hload as [|[|[|[|]]]]. }
  split; [apply Hupdate|]. split; [apply Hupdate|].
  unfold createDispute.
  match goal with
  | |- context [updatePackageStatus env now w packageId ?s userId ?o] =>
      destruct (Hupdate s o) as [Hemitted Hresult];
      destruct (updatePackageStatus env now w packageId s userId o)
        as [w1 [r1|e1]]
  end; simpl in *.
  - unfold query_INSERT_package_disputes.
    destruct (rejects env _); simpl; [by split|].
    unfold notifyDisputeCreated. rewrite Hio. simpl. by split.
  - split; [done|]. congruence.
Qed.

Lemma nothing_is_emitted_without_io_witness :
  emitted (updatePackageStatus
             no_socket 100 (sample_world (Some "arrived")) 1 "delivered" 10
             no_options).1
  = []
  ∧ succeeded (updatePackageStatus no_socket 100 (sample_world (Some "arrived"))
                 1 "delivered" 10 no_options).2 = true.
Proof.
  split.
  - apply (nothing_is_emitted_without_io no_socket 100
             (sample_world (Some "arrived")) 1 "delivered" 10 no_options
             sample_dispute eq_refl).
  - vm_compute. reflexivity.
Defined.

(** ** Dead ends *)

(** X6. DISPUTED is terminal for the engine as well: on a package whose status
    is 'disputed', every call of [updatePackageStatus] and of
    [createDispute], by whomever and towards whatever status, throws
    'Transition non autorisée' and changes nothing; in particular no
    second dispute is recorded. *)
Theorem disputed_package_is_frozen (env : environment) (now : Z) (w : world)
    (packageId : Z) (newStatus : string) (userId : Z) (opts : options)
    (disputeData : dispute_data) (packageData : package_data) :
  select_package (db w) packageId = Ok (Some packageData) ->
  pd_status packageData = Some (PACKAGE_STATUS DISPUTED) ->
  updatePackageStatus env now w packageId newStatus userId opts
    = (w, Throw (TransitionNonAutorisee (JString "disputed") newStatus))
  ∧ createDispute env now w packageId userId disputeData
    = (w, Throw (TransitionNonAutorisee (JString "disputed") "disputed")).
Proof.
  intros Hsel Hstatus.
  assert (Hupdate : ∀ s o,
            updatePackageStatus env now w packageId s userId o
            = (w, Throw (TransitionNonAutorisee (JString "disputed") s))).
  { intros s o. unfold updatePackageStatus, load_and_validate.
    rewrite Hsel, Hstatus. reflexivity. }
  split; [apply Hupdate|].
  unfold createDispute. by rewrite Hupdate.
Qed.

Lemma disputed_package_is_frozen_witness :
  updatePackageStatus quiet 100 (sample_world (Some "disputed")) 1 "delivered" 10
    no_options
    = (sample_world (Some "disputed"),
       Throw (TransitionNonAutorisee (JString "disputed") "delivered"))
  ∧ createDispute quiet 100 (sample_world (Some "disputed")) 1 20 sample_dispute
    = (sample_world (Some "disputed"),
       Throw (TransitionNonAutorisee (JString "disputed") "disputed")).
Proof.
  apply (disputed_package_is_frozen quiet 100 (sample_world (Some "disputed")) 1
           "delivered" 10 no_options sample_dispute
           {| pd_id := 1; pd_sender_id := Some 10; pd_traveler_id := Some 20;
              pd_title := "Documents"; pd_status := Some "disputed" |});
    vm_compute; reflexivity.
Defined.

(** X7. A package whose stored status is neither a key of [ALLOWED_TRANSITIONS]
    nor a member of [Object.prototype] cannot be moved: every call throws
    'Transition non autorisée' and changes nothing.  'pending', the default
    of the column, and 'cancelled' are such statuses. *)
Theorem unknown_status_is_stuck (env : environment) (now : Z) (w : world)
    (packageId : Z) (newStatus : string) (userId : Z) (opts : options)
    (packageData : package_data) (current : string) :
  select_package (db w) packageId = Ok (Some packageData) ->
  pd_status packageData = Some current ->
  current ≠ "" ->
  get_property ALLOWED_TRANSITIONS current = Undefined ->
  updatePackageStatus env now w packageId newStatus userId opts
  = (w, Throw (TransitionNonAutorisee (JString current) newStatus)).
Proof.
  intros Hsel Hstatus Hnonempty Hunknown.
  unfold updatePackageStatus, load_and_validate, isTransitionAllowed.
  rewrite Hsel, Hstatus. simpl. rewrite Hunknown.
  destruct (String.eqb_spec current ""); [contradiction|]. reflexivity.
Qed.

Lemma unknown_status_is_stuck_witness :
  updatePackageStatus quiet 100 (sample_world (Some "pending")) 1 "accepted" 20
    no_options
  = (sample_world (Some "pending"),
     Throw (TransitionNonAutorisee (JString "pending") "accepted")).
Proof.
  apply (unknown_status_is_stuck quiet 100 (sample_world (Some "pending")) 1
           "accepted" 20 no_options
           {| pd_id := 1; pd_sender_id := Some 10; pd_traveler_id := Some 20;
              pd_title := "Documents"; pd_status := Some "pending" |} "pending");
    first [discriminate | vm_compute; reflexivity].
Defined.

(** X8. A package without status (NULL or the empty string) cannot be moved
    either: the only target the transition check lets through is
    'requested', which the permission check grants to nobody. *)
Theorem statusless_package_is_stuck (env : environment) (now : Z) (w : world)
    (packageId : Z) (newStatus : string) (userId : Z) (opts : options)
    (packageData : package_data) :
  select_package (db w) packageId = Ok (Some packageData) ->
  truthy (of_column (pd_status packageData)) = false ->
  ∃ e, updatePackageStatus env now w packageId newStatus userId opts
       = (w, Throw e)
       ∧ (if bool_decide (newStatus = PACKAGE_STATUS REQUESTED)
          then e = PermissionInsuffisante
          else e = TransitionNonAutorisee (of_column (pd_status packageData))
                     newStatus).
Proof.
  intros Hsel Hfalsy.
  unfold updatePackageStatus, load_and_validate, isTransitionAllowed.
  rewrite Hsel, Hfalsy. cbn [negb].
  case_bool_decide as Hrequested.
  - subst newStatus. rewrite REQUESTED_is_never_permitted. by eexists.
  - by eexists.
Qed.

Lemma statusless_package_is_stuck_witness :
  ∃ e, updatePackageStatus quiet 100 (sample_world None) 1 "requested" 10
         no_options = (sample_world None, Throw e)
       ∧ e = PermissionInsuffisante.
Proof.
  apply (statusless_package_is_stuck quiet 100 (sample_world None) 1 "requested"
           10 no_options
           {| pd_id := 1; pd_sender_id := Some 10; pd_traveler_id := Some 20;
              pd_title := "Documents"; pd_status := None |});
    vm_compute; reflexivity.
Defined.

(** ** Disputes *)

Lemma updatePackageStatus_db env now w packageId newStatus userId opts w' r :
  updatePackageStatus env now w packageId newStatus userId opts = (w', r) ->
  ((w' = w ∨ w' = after_nextval_package_tracking w) ∧ succeeded r = false)
  ∨ (∃ packageData,
       load_and_validate (db w) packageId newStatus userId = Ok packageData
       ∧ db w' = COMMIT
           [SetStatus packageId newStatus
              (CURRENT_TIMESTAMP env (UPDATE_packages newStatus packageId));
            AddTracking
              (inserted_tracking_row (package_tracking_id_seq (db w) + 1)
                 (make_trackingData packageId newStatus userId opts now))]
           (nextval_package_tracking (db w)).1).
Proof.
  unfold updatePackageStatus. intros Hcall.
  destruct (load_and_validate (db w) packageId newStatus userId)
    as [packageData|] eqn:Hload.
  - apply write_commit_notify_db in Hcall as [[-> ->] | [(-> & -> & _) | Hdb]].
    + left. split; [by left|done].
    + left. split; [by right|done].
    + right. by exists packageData.
  - inversion Hcall; subst. left. split; [by left|done].
Qed.

(** The three outcomes of a call: nothing written, the call having thrown;
    both writes committed and the call having thrown after the [COMMIT],
    because of a notification; both writes committed and the call having
    returned. *)
Lemma updatePackageStatus_outcome env now w packageId newStatus userId opts w' r :
  updatePackageStatus env now w packageId newStatus userId opts = (w', r) ->
  ((w' = w ∨ w' = after_nextval_package_tracking w) ∧ succeeded r = false)
  ∨ ((∃ p, packages (db w) !! packageId = Some p)
     ∧ (r = Throw EmitError ∨ r = Throw TypeError ∨ succeeded r = true)
     ∧ db w' = COMMIT
         [SetStatus packageId newStatus
            (CURRENT_TIMESTAMP env (UPDATE_packages newStatus packageId));
          AddTracking
            (inserted_tracking_row (package_tracking_id_seq (db w) + 1)
               (make_trackingData packageId newStatus userId opts now))]
         (nextval_package_tracking (db w)).1).
Proof.
  intros Hcall.
  unfold updatePackageStatus in Hcall.
  destruct (load_and_validate (db w) packageId newStatus userId)
    as [packageData|] eqn:Hload.
  - apply load_and_validate_Ok in Hload as (Hsel & _ & _).
    apply select_package_Some in Hsel as (p & _ & _ & _ & _ & Hp & _).
    pose proof Hcall as Hcall'.
    apply write_commit_notify_db in Hcall
      as [[-> ->] | [(-> & -> & _) | Hdb]].
    + left. split; [by left|done].
    + left. split; [by right|done].
    + right. split; [by exists p|]. split; [|exact Hdb].
      destruct r as [r|e]; [by right; right|].
      apply write_commit_notify_Throw in Hcall' as Hkind.
      destruct Hkind as [-> | [-> | ->]]; [|by left|by right; left].
      exfalso.
      unfold write_commit_notify, query_UPDATE_packages, createTrackingRecord
        in Hcall'.
      destruct (rejects env (UPDATE_packages _ _)); simpl in Hcall'.
      { injection Hcall' as <-.
        apply (f_equal package_tracking) in Hdb. simpl in Hdb.
        apply (f_equal length) in Hdb. rewrite length_app in Hdb.
        simpl in Hdb. lia. }
      destruct (rejects env (INSERT_package_tracking _)); simpl in Hcall'.
      { destruct (nextval_before_refusal env (INSERT_package_tracking _));
          injection Hcall' as <-; apply (f_equal package_tracking) in Hdb;
          simpl in Hdb; apply (f_equal length) in Hdb;
          rewrite length_app in Hdb; simpl in Hdb; lia. }
      match type of Hcall' with
      | context [sendStatusNotifications ?e ?c ?p ?s ?t] =>
          destruct (sendStatusNotifications e c p s t) as [w1 [[]|e1]] eqn:Hs
      end; [discriminate|].
      apply sendStatusNotifications_Throw in Hs.
      inversion Hcall'; subst. by destruct Hs.
  - inversion Hcall; subst. left. split; [by left|done].
Qed.

(** X9. A dispute that [createDispute] reports as filed is on record: the
    table [package_disputes] has gained exactly one row, open, with the
    identifier that was returned, the reporter, reason, description and
    evidence that were given, and the time of the database; the package is
    'disputed'; and the history has gained one 'disputed' record whose
    note is 'Litige déclaré: ' followed by the reason. *)
Theorem filed_dispute_is_on_record (env : environment) (now : Z) (w : world)
    (packageId userId : Z) (disputeData : dispute_data) (w' : world)
    (r : dispute_result) :
  createDispute env now w packageId userId disputeData = (w', Ok r) ->
  dr_disputeId r = package_disputes_id_seq (db w) + 1
  ∧ package_disputes (db w')
    = package_disputes (db w) ++
      [{| d_id := dr_disputeId r;
          d_package_id := packageId;
          d_reporter_id := userId;
          d_reason := dd_reason disputeData;
          d_description := dd_description disputeData;
          d_evidence_photos := dd_evidencePhotos disputeData;
          d_status := "open";
          d_created_at :=
            CURRENT_TIMESTAMP env
              (INSERT_package_disputes packageId userId disputeData) |}]
  ∧ p_status <$> packages (db w') !! packageId
    = Some (Some (PACKAGE_STATUS DISPUTED))
  ∧ package_tracking (db w')
    = package_tracking (db w) ++
      [{| pt_id := package_tracking_id_seq (db w) + 1;
          pt_package_id := packageId;
          pt_status := PACKAGE_STATUS DISPUTED;
          pt_user_id := userId;
          pt_notes := Some ("Litige déclaré: " +:+ dd_reason disputeData);
          pt_location := None;
          pt_photo_path := None;
          pt_created_at := now |}].
Proof.
  unfold createDispute. intros Hcall.
  destruct (updatePackageStatus _ _ _ _ _ _ _) as [w1 [r1|e1]] eqn:Hupdate;
    [|discriminate].
  unfold query_INSERT_package_disputes in Hcall.
  destruct (rejects env _); [discriminate|]. simpl in Hcall.
  inversion Hcall; subst. rewrite notifyDisputeCreated_db. simpl.
  apply updatePackageStatus_db in Hupdate as [[_ [=]] | (packageData & Hload & Hdb)].
  apply load_and_validate_Ok in Hload as (Hsel & _ & _).
  apply select_package_Some in Hsel as (p & _ & _ & _ & _ & Hp & _).
  rewrite Hdb. simpl. rewrite lookup_alter_eq, Hp. done.
Qed.

Lemma filed_dispute_is_on_record_witness :
  ∃ w' r,
    createDispute quiet 100 (sample_world (Some "in_transit")) 1 10 sample_dispute
    = (w', Ok r)
    ∧ dr_disputeId r = 1
    ∧ d_status <$> package_disputes (db w') = ["open"]
    ∧ d_created_at <$> package_disputes (db w') = [1000]
    ∧ pt_notes <$> package_tracking (db w')
      = [Some "Litige déclaré: Colis endommagé"].
Proof.
  destruct (createDispute quiet 100 (sample_world (Some "in_transit")) 1 10
              sample_dispute) as [w' [r|e]] eqn:Hcall;
    [|vm_compute in Hcall; discriminate Hcall].
  exists w', r. split; [reflexivity|].
  destruct (filed_dispute_is_on_record _ _ _ _ _ _ _ _ Hcall)
    as (Hid & Hdisputes & _ & Htracking).
  split; [exact Hid|]. by rewrite Hdisputes, Htracking.
Defined.



(** ** Emissions that cannot fail a dispute *)

Section SameStore.

Variables env env' : environment.
Hypothesis same_rejects : ∀ s, rejects env s = rejects env' s.
Hypothesis same_nextval :
  ∀ s, nextval_before_refusal env s = nextval_before_refusal env' s.
Hypothesis same_clock : ∀ s, CURRENT_TIMESTAMP env s = CURRENT_TIMESTAMP env' s.
Hypothesis same_io : io_initialized env = io_initialized env'.
Hypothesis same_user_rooms :
  ∀ userId, emit_throws env (user_room userId) = emit_throws env' (user_room userId).

Lemma sendStatusNotifications_same w packageData newStatus trackingData :
  sendStatusNotifications env w packageData newStatus trackingData
  = sendStatusNotifications env' w packageData newStatus trackingData.
Proof.
  unfold sendStatusNotifications, sendSystemNotification.
  rewrite same_io, same_user_rooms.
  destruct (pd_traveler_id packageData) as [traveler_id|]; [|done].
  by rewrite (same_user_rooms (Some traveler_id)).
Qed.

Lemma updatePackageStatus_same now w packageId newStatus userId opts :
  updatePackageStatus env now w packageId newStatus userId opts
  = updatePackageStatus env' now w packageId newStatus userId opts.
Proof.
  unfold updatePackageStatus, write_commit_notify, query_UPDATE_packages,
    createTrackingRecord.
  destruct (load_and_validate _ _ _ _); [|done].
  rewrite !same_rejects, !same_nextval, !same_clock.
  destruct (rejects env' (UPDATE_packages _ _)); simpl; [done|].
  destruct (rejects env' (INSERT_package_tracking _)); simpl; [done|].
  by rewrite sendStatusNotifications_same.
Qed.

(** X11. The emissions of [notifyDisputeCreated], to the room of the package and
    to the room of the administrators, are caught: whether they raise or
    not changes neither what [createDispute] returns or throws nor what it
    leaves in the database. *)
Theorem dispute_emissions_cannot_fail_the_call (now : Z) (w : world)
    (packageId userId : Z) (disputeData : dispute_data) :
  (createDispute env now w packageId userId disputeData).2
  = (createDispute env' now w packageId userId disputeData).2
  ∧ db (createDispute env now w packageId userId disputeData).1
    = db (createDispute env' now w packageId userId disputeData).1.
Proof.
  unfold createDispute. rewrite updatePackageStatus_same.
  destruct (updatePackageStatus env' _ _ _ _ _ _) as [w1 [r1|e1]]; [|done].
  unfold query_INSERT_package_disputes.
  rewrite same_rejects, same_nextval, same_clock.
  destruct (rejects env' _); [done|]. simpl.
  by rewrite !notifyDisputeCreated_db.
Qed.

End SameStore.

Lemma dispute_emissions_cannot_fail_the_call_witness :
  (createDispute dispute_rooms_broken 100 (sample_world (Some "in_transit")) 1 10
     sample_dispute).2
  = Ok {| dr_disputeId := 1 |}.
Proof.
  rewrite (proj1 (dispute_emissions_cannot_fail_the_call dispute_rooms_broken
                    quiet (fun _ => eq_refl) (fun _ => eq_refl)
                    (fun _ => eq_refl) eq_refl (fun _ => eq_refl)
                    100 (sample_world (Some "in_transit")) 1 10 sample_dispute)).
  vm_compute. reflexivity.
Defined.

(** ** Invariants of the store *)

(** X12. The references between the tables survive every call of
    [updatePackageStatus] and of [createDispute], whatever the outcome. *)
Theorem references_are_preserved (env : environment) (now : Z) (w : world)
    (packageId : Z) (newStatus : string) (userId : Z) (opts : options)
    (disputeData : dispute_data) :
  referential_integrity (db w) ->
  referential_integrity
    (db (updatePackageStatus env now w packageId newStatus userId opts).1)
  ∧ referential_integrity
      (db (createDispute env now w packageId userId disputeData).1).
Proof.
  intros Hintegrity. split.
  - destruct (updatePackageStatus env now w packageId newStatus userId opts)
      as [w' r] eqn:Hcall.
    by eapply updatePackageStatus_referential_integrity.
  - destruct (createDispute env now w packageId userId disputeData)
      as [w' r] eqn:Hcall.
    by eapply createDispute_referential_integrity.
Qed.

Lemma references_are_preserved_witness :
  referential_integrity
    (db (updatePackageStatus quiet 300 {| db := sample_history; emitted := [] |} 1
           "in_transit" 20 no_options).1)
  ∧ referential_integrity
      (db (createDispute quiet 300 {| db := sample_history; emitted := [] |} 1 20
             sample_dispute).1).
Proof.
  apply (references_are_preserved quiet 300
           {| db := sample_history; emitted := [] |} 1 "in_transit" 20 no_options
           sample_dispute).
  apply (bool_decide_unpack _). vm_compute. exact I.
Defined.

Lemma statuses_are_tokens_alter d packageId k updated_at :
  statuses_are_tokens d ->
  map_Forall (fun _ p => ∃ k, p_status p = Some (PACKAGE_STATUS k))
    (alter (with_status (PACKAGE_STATUS k) updated_at) packageId (packages d)).
Proof.
  intros Htokens i p Hlookup. rewrite lookup_alter in Hlookup.
  case_decide; [subst i|exact (Htokens _ _ Hlookup)].
  apply fmap_Some in Hlookup as (p0 & _ & ->). by exists k.
Qed.

(** X13. The engine keeps the stored statuses within the seven tokens: if every
    package has one of them, so it is after every call of
    [updatePackageStatus] and of [createDispute], whatever the outcome. *)
Theorem statuses_stay_tokens (env : environment) (now : Z) (w : world)
    (packageId : Z) (newStatus : string) (userId : Z) (opts : options)
    (disputeData : dispute_data) :
  statuses_are_tokens (db w) ->
  statuses_are_tokens
    (db (updatePackageStatus env now w packageId newStatus userId opts).1)
  ∧ statuses_are_tokens
      (db (createDispute env now w packageId userId disputeData).1).
Proof.
  intros Htokens.
  assert (Hupdate : ∀ s o,
            statuses_are_tokens
              (db (updatePackageStatus env now w packageId s userId o).1)).
  { intros s o.
    destruct (updatePackageStatus env now w packageId s userId o)
      as [w' r] eqn:Hcall. simpl.
    apply updatePackageStatus_db in Hcall
      as [[[-> | ->] _] | (pd & Hload & ->)]; [exact Htokens..|].
    apply load_and_validate_Ok in Hload as (_ & _ & Hperm).
    apply hasPermissionToUpdate_token in Hperm as (k & -> & _).
    by apply statuses_are_tokens_alter. }
  split; [apply Hupdate|].
  unfold createDispute.
  match goal with
  | |- context [updatePackageStatus env now w packageId ?s userId ?o] =>
      specialize (Hupdate s o);
      destruct (updatePackageStatus env now w packageId s userId o)
        as [w1 [r1|e1]]
  end; simpl in *; [|exact Hupdate].
  unfold query_INSERT_package_disputes.
  destruct (rejects env _); simpl;
    [by destruct (nextval_before_refusal env (INSERT_package_disputes _ _ _))|].
  rewrite notifyDisputeCreated_db. exact Hupdate.
Qed.

Lemma statuses_stay_tokens_witness :
  statuses_are_tokens
    (db (updatePackageStatus quiet 100 (sample_world (Some "arrived")) 1
           "delivered" 10 no_options).1)
  ∧ statuses_are_tokens
      (db (createDispute quiet 100 (sample_world (Some "arrived")) 1 10
             sample_dispute).1).
Proof.
  apply (statuses_stay_tokens quiet 100 (sample_world (Some "arrived")) 1
           "delivered" 10 no_options sample_dispute).
  intros i p Hlookup. simpl in Hlookup.
  apply lookup_insert_Some in Hlookup as [[_ <-] | [_ Hlookup]].
  - by exists ARRIVED.
  - by rewrite lookup_empty in Hlookup.
Defined.

(** X14. A call touches one package and nothing else of the stored rows:
    users, trips and disputes are as before, every other package is as
    before, the named package keeps its sender, trip and title, and the
    history only grows at its end.  Of the named package the call writes
    two columns, [status] and [updated_at]: after a call that succeeds
    they are the new status and the time of the database; after a call
    that throws [QueryError] or one of the errors of the checks they are
    as before, and so is the whole row. *)
Theorem update_touches_one_package (env : environment) (now : Z) (w : world)
    (packageId : Z) (newStatus : string) (userId : Z) (opts : options)
    (w' : world) (r : result update_result) :
  updatePackageStatus env now w packageId newStatus userId opts = (w', r) ->
  users (db w') = users (db w)
  ∧ trips (db w') = trips (db w)
  ∧ package_disputes (db w') = package_disputes (db w)
  ∧ package_disputes_id_seq (db w') = package_disputes_id_seq (db w)
  ∧ package_tracking_id_seq (db w) ≤ package_tracking_id_seq (db w')
    ≤ package_tracking_id_seq (db w) + 1
  ∧ (∀ other, other ≠ packageId ->
       packages (db w') !! other = packages (db w) !! other)
  ∧ (fun p => (p_sender_id p, p_trip_id p, p_title p)) <$>
      packages (db w') !! packageId
    = (fun p => (p_sender_id p, p_trip_id p, p_title p)) <$>
        packages (db w) !! packageId
  ∧ package_tracking (db w) `prefix_of` package_tracking (db w')
  ∧ (succeeded r = true ->
       (fun p => (p_status p, p_updated_at p)) <$> packages (db w') !! packageId
       = Some (Some newStatus,
               CURRENT_TIMESTAMP env (UPDATE_packages newStatus packageId)))
  ∧ (r = Throw QueryError ∨ (∃ e, r = Throw e ∧ e ≠ EmitError ∧ e ≠ TypeError) ->
       packages (db w') = packages (db w)
       ∧ package_tracking (db w') = package_tracking (db w)).
Proof.
  intros Hcall.
  apply updatePackageStatus_outcome in Hcall as Hrows.
  destruct Hrows as [[Hw' Hfailed] | ([p Hp] & Hr & Hdb)].
  - assert (Hsame : users (db w') = users (db w) ∧ trips (db w') = trips (db w)
                    ∧ packages (db w') = packages (db w)
                    ∧ package_tracking (db w') = package_tracking (db w)
                    ∧ package_disputes (db w') = package_disputes (db w)
                    ∧ package_disputes_id_seq (db w')
                      = package_disputes_id_seq (db w)
                    ∧ package_tracking_id_seq (db w)
                      ≤ package_tracking_id_seq (db w')
                      ≤ package_tracking_id_seq (db w) + 1)
      by (destruct Hw' as [-> | ->]; repeat split; simpl; first [done | lia]).
    destruct Hsame as (-> & -> & -> & -> & -> & -> & Hseq).
    repeat split; try done; try lia.
    intros Hok. rewrite Hfailed in Hok. discriminate Hok.
  - rewrite Hdb. simpl. split; [done|]. split; [done|]. split; [done|].
    split; [done|]. split; [lia|]. split; [|split; [|split; [|split]]].
    + intros other Hother. by rewrite lookup_alter_ne.
    + by rewrite lookup_alter_eq, Hp.
    + by apply prefix_app_r.
    + intros _. by rewrite lookup_alter_eq, Hp.
    + intros [-> | (e & -> & Hemit & Htype)]; exfalso;
        destruct Hr as [[=] | [[=] | [=]]]; congruence.
Qed.

Lemma update_touches_one_package_witness :
  packages
    (db (updatePackageStatus quiet 300
           {| db := sample_two_packages; emitted := [] |} 2 "picked_up" 20
           no_options).1) !! 1
  = packages sample_two_packages !! 1
  ∧ (fun p => (p_status p, p_updated_at p)) <$>
      packages
        (db (updatePackageStatus quiet 300
               {| db := sample_two_packages; emitted := [] |} 2 "picked_up" 20
               no_options).1) !! 2
    = Some (Some "picked_up", 1000).
Proof.
  destruct (updatePackageStatus quiet 300
              {| db := sample_two_packages; emitted := [] |} 2 "picked_up" 20
              no_options) as [w' r] eqn:Hcall.
  destruct (update_touches_one_package quiet 300
              {| db := sample_two_packages; emitted := [] |} 2 "picked_up" 20
              no_options w' r Hcall)
    as (_ & _ & _ & _ & _ & Hother & _ & _ & Hwritten & _).
  split.
  - apply Hother. discriminate.
  - apply Hwritten. vm_compute in Hcall. by inversion Hcall.
Defined.

(** ** Histories, before and after *)

(** X15. The history of a package after a successful call is its history before
    the call plus one record, that of the call: for every reader who could
    read it before, provided the references of the tables hold. *)
Theorem history_gains_the_record (env reading : environment) (now : Z)
    (w : world) (packageId : Z) (newStatus : string) (userId : Z)
    (opts : options) (w' : world) (r : update_result) (reader : Z)
    (before : list tracking_record) :
  updatePackageStatus env now w packageId newStatus userId opts = (w', Ok r) ->
  referential_integrity (db w) ->
  getPackageTracking reading (db w) packageId reader = Ok before ->
  ∃ after record,
    getPackageTracking reading (db w') packageId reader = Ok after
    ∧ after ≡ₚ before ++ [record]
    ∧ tr_id record = ur_tracking_id r
    ∧ tr_status record = newStatus
    ∧ tr_user_id record = userId
    ∧ tr_notes record = or_null (notes opts)
    ∧ tr_timestamp record = now.
Proof.
  intros Hcall Hintegrity Hbefore.
  pose proof Hcall as Hcall'.
  apply updatePackageStatus_db in Hcall as [[_ [=]] | (pd & Hload & Hdb)].
  apply load_and_validate_Ok in Hload as (Hsel & _ & Hperm).
  destruct (permitted_actor_is_user _ _ _ _ _ Hintegrity Hsel Hperm) as [u Hu].
  set (row := inserted_tracking_row (package_tracking_id_seq (db w) + 1)
                (make_trackingData packageId newStatus userId opts now)) in *.
  assert (Hid : ur_tracking_id r = package_tracking_id_seq (db w) + 1).
  { unfold updatePackageStatus in Hcall'.
    destruct (load_and_validate _ _ _ _); [|discriminate].
    by eapply write_commit_notify_tracking_id. }
  assert (Haccess : select_access (db w') packageId
                    = select_access (db w) packageId).
  { unfold select_access. rewrite Hdb. simpl. rewrite lookup_alter_eq.
    by destruct (packages (db w) !! packageId). }
  unfold getPackageTracking in *. rewrite Haccess.
  destruct (select_access (db w) packageId) as [[[sender_id traveler_id]|]|];
    [|discriminate..].
  destruct (_ && _); [discriminate|].
  inversion Hbefore; subst before.
  eexists. exists (to_tracking_record (row, u)).
  split; [reflexivity|]. split; [|by rewrite Hid].
  rewrite <- (fmap_app to_tracking_record _ [(row, u)]).
  apply fmap_Permutation.
  rewrite !select_tracking_Permutation, Hdb. simpl.
  rewrite filter_app, omap_app.
  rewrite filter_cons_True by reflexivity. rewrite filter_nil. simpl.
  unfold join_user at 2. simpl. rewrite Hu. reflexivity.
Qed.

Lemma history_gains_the_record_witness :
  ∃ after record,
    getPackageTracking newest_first
      (db (updatePackageStatus quiet 50 {| db := sample_history; emitted := [] |} 1
             "in_transit" 20 no_options).1) 1 10 = Ok after
    ∧ after ≡ₚ (to_tracking_record <$> select_tracking newest_first sample_history 1)
               ++ [record]
    ∧ tr_status record = "in_transit"
    ∧ tr_timestamp record = 50.
Proof.
  destruct (updatePackageStatus quiet 50 {| db := sample_history; emitted := [] |}
              1 "in_transit" 20 no_options) as [w' [r|e]] eqn:Hcall;
    [|vm_compute in Hcall; discriminate Hcall].
  destruct (history_gains_the_record quiet newest_first 50
              {| db := sample_history; emitted := [] |} 1 "in_transit" 20
              no_options w' r 10
              (to_tracking_record <$> select_tracking newest_first sample_history 1)
              Hcall)
    as (after & record & Hafter & Hperm & _ & Hstatus & _ & _ & Htime).
  - apply (bool_decide_unpack _). vm_compute. exact I.
  - vm_compute. reflexivity.
  - exists after, record. auto.
Defined.

(** X16. A call leaves the history of every other package as it was, for every
    reader and whatever the outcome of the call. *)
Theorem other_histories_are_untouched (env reading : environment) (now : Z)
    (w : world) (packageId : Z) (newStatus : string) (userId : Z)
    (opts : options) (other reader : Z) :
  other ≠ packageId ->
  getPackageTracking reading
    (db (updatePackageStatus env now w packageId newStatus userId opts).1)
    other reader
  = getPackageTracking reading (db w) other reader.
Proof.
  intros Hother.
  destruct (updatePackageStatus env now w packageId newStatus userId opts)
    as [w' r] eqn:Hcall. simpl.
  apply updatePackageStatus_db in Hcall
    as [[[-> | ->] _] | (pd & _ & ->)]; [done..|].
  unfold getPackageTracking, select_access, select_tracking. simpl.
  rewrite lookup_alter_ne by done.
  rewrite filter_app, filter_cons_False, filter_nil, app_nil_r; [done|].
  simpl. congruence.
Qed.

Lemma other_histories_are_untouched_witness :
  getPackageTracking quiet
    (db (updatePackageStatus quiet 300
           {| db := sample_two_packages; emitted := [] |} 2 "picked_up" 20
           no_options).1) 1 10
  = getPackageTracking quiet sample_two_packages 1 10
  ∧ p_status <$>
      packages
        (db (updatePackageStatus quiet 300
               {| db := sample_two_packages; emitted := [] |} 2 "picked_up" 20
               no_options).1) !! 2
    = Some (Some "picked_up").
Proof.
  split.
  - apply (other_histories_are_untouched quiet quiet 300
             {| db := sample_two_packages; emitted := [] |} 2 "picked_up" 20
             no_options 1 10).
    discriminate.
  - vm_compute. reflexivity.
Defined.

(** ** The whole way *)

Section NothingFailsOnTheWay.

Variable env : environment.
Hypothesis rejects_nothing : ∀ s, rejects env s = false.
Hypothesis emits_quietly : ∀ r, emit_throws env r = false.

Lemma updatePackageStatus_step now w packageId newStatus userId opts packageData :
  select_package (db w) packageId = Ok (Some packageData) ->
  isTransitionAllowed (of_column (pd_status packageData)) newStatus = Ok true ->
  hasPermissionToUpdate packageData userId newStatus = true ->
  ∃ w' r,
    updatePackageStatus env now w packageId newStatus userId opts = (w', Ok r)
    ∧ select_package (db w') packageId
      = Ok (Some {| pd_id := pd_id packageData;
                    pd_sender_id := pd_sender_id packageData;
                    pd_traveler_id := pd_traveler_id packageData;
                    pd_title := pd_title packageData;
                    pd_status := Some newStatus |})
    ∧ pt_status <$> package_tracking (db w')
      = (pt_status <$> package_tracking (db w)) ++ [newStatus].
Proof.
  intros Hsel Hallowed Hperm.
  destruct (hasPermissionToUpdate_message _ _ _ Hperm) as [m Hm].
  unfold updatePackageStatus, load_and_validate.
  rewrite Hsel, Hallowed, Hperm.
  destruct (write_commit_notify_succeeds env rejects_nothing emits_quietly now w
              packageData packageId newStatus userId opts m Hm)
    as (w' & r & Hcall).
  rewrite Hcall. exists w', r. split; [reflexivity|].
  apply write_commit_notify_Ok in Hcall as (_ & _ & Hdb).
  split.
  - eapply (select_package_with_status (db w) (db w')); [exact Hsel|..];
      rewrite Hdb; reflexivity.
  - rewrite Hdb. simpl. by rewrite fmap_app.
Qed.

(** X17. From 'requested' to 'delivered': when the database refuses nothing and
    no emission raises, the traveler's four steps followed by the sender's
    confirmation all succeed, one after the other, whatever the clock
    shows; the package ends 'delivered' and the history has gained the
    five statuses in that order. *)
Theorem the_whole_way_succeeds (w : world) (packageId sender traveler : Z)
    (packageData : package_data) (t1 t2 t3 t4 t5 : Z) (o1 o2 o3 o4 o5 : options) :
  select_package (db w) packageId = Ok (Some packageData) ->
  pd_status packageData = Some (PACKAGE_STATUS REQUESTED) ->
  pd_sender_id packageData = Some sender ->
  pd_traveler_id packageData = Some traveler ->
  ∃ w1 r1 w2 r2 w3 r3 w4 r4 w5 r5,
    updatePackageStatus env t1 w packageId (PACKAGE_STATUS ACCEPTED) traveler o1
      = (w1, Ok r1)
    ∧ updatePackageStatus env t2 w1 packageId (PACKAGE_STATUS PICKED_UP) traveler o2
      = (w2, Ok r2)
    ∧ updatePackageStatus env t3 w2 packageId (PACKAGE_STATUS IN_TRANSIT) traveler o3
      = (w3, Ok r3)
    ∧ updatePackageStatus env t4 w3 packageId (PACKAGE_STATUS ARRIVED) traveler o4
      = (w4, Ok r4)
    ∧ updatePackageStatus env t5 w4 packageId (PACKAGE_STATUS DELIVERED) sender o5
      = (w5, Ok r5)
    ∧ p_status <$> packages (db w5) !! packageId
      = Some (Some (PACKAGE_STATUS DELIVERED))
    ∧ pt_status <$> package_tracking (db w5)
      = (pt_status <$> package_tracking (db w)) ++
        (PACKAGE_STATUS <$> [ACCEPTED; PICKED_UP; IN_TRANSIT; ARRIVED; DELIVERED]).
Proof.
  intros Hsel Hstatus Hsender Htraveler.
  destruct (updatePackageStatus_step t1 w packageId (PACKAGE_STATUS ACCEPTED)
              traveler o1 packageData Hsel) as (w1 & r1 & H1 & Hsel1 & Hh1).
  { by rewrite Hstatus. }
  { unfold hasPermissionToUpdate. rewrite Htraveler. simpl.
    by rewrite bool_decide_eq_true_2. }
  destruct (updatePackageStatus_step t2 w1 packageId (PACKAGE_STATUS PICKED_UP)
              traveler o2 _ Hsel1) as (w2 & r2 & H2 & Hsel2 & Hh2).
  { reflexivity. }
  { unfold hasPermissionToUpdate. simpl. rewrite Htraveler.
    by rewrite bool_decide_eq_true_2. }
  destruct (updatePackageStatus_step t3 w2 packageId (PACKAGE_STATUS IN_TRANSIT)
              traveler o3 _ Hsel2) as (w3 & r3 & H3 & Hsel3 & Hh3).
  { reflexivity. }
  { unfold hasPermissionToUpdate. simpl. rewrite Htraveler.
    by rewrite bool_decide_eq_true_2. }
  destruct (updatePackageStatus_step t4 w3 packageId (PACKAGE_STATUS ARRIVED)
              traveler o4 _ Hsel3) as (w4 & r4 & H4 & Hsel4 & Hh4).
  { reflexivity. }
  { unfold hasPermissionToUpdate. simpl. rewrite Htraveler.
    by rewrite bool_decide_eq_true_2. }
  destruct (updatePackageStatus_step t5 w4 packageId (PACKAGE_STATUS DELIVERED)
              sender o5 _ Hsel4) as (w5 & r5 & H5 & Hsel5 & Hh5).
  { reflexivity. }
  { unfold hasPermissionToUpdate. simpl. rewrite Hsender.
    by rewrite bool_decide_eq_true_2. }
  exists w1, r1, w2, r2, w3, r3, w4, r4, w5, r5.
  repeat (split; [assumption|]). split.
  - apply select_package_Some in Hsel5
      as (p & ? & ? & ? & ? & Hp & ? & ? & ? & ? & Heq).
    apply (f_equal pd_status) in Heq. simpl in Heq.
    rewrite Hp. simpl. by rewrite <- Heq.
  - rewrite Hh5, Hh4, Hh3, Hh2, Hh1. by rewrite <- !app_assoc.
Qed.

End NothingFailsOnTheWay.

Lemma the_whole_way_succeeds_witness :
  ∃ w1 r1 w2 r2 w3 r3 w4 r4 w5 r5,
    updatePackageStatus quiet 1 (sample_world (Some "requested")) 1 "accepted" 20
      no_options = (w1, Ok r1)
    ∧ updatePackageStatus quiet 2 w1 1 "picked_up" 20 no_options = (w2, Ok r2)
    ∧ updatePackageStatus quiet 3 w2 1 "in_transit" 20 no_options = (w3, Ok r3)
    ∧ updatePackageStatus quiet 4 w3 1 "arrived" 20 no_options = (w4, Ok r4)
    ∧ updatePackageStatus quiet 5 w4 1 "delivered" 10 no_options = (w5, Ok r5)
    ∧ p_status <$> packages (db w5) !! 1 = Some (Some "delivered")
    ∧ pt_status <$> package_tracking (db w5)
      = ["accepted"; "picked_up"; "in_transit"; "arrived"; "delivered"].
Proof.
  apply (the_whole_way_succeeds quiet (fun _ => eq_refl) (fun _ => eq_refl)
           (sample_world (Some "requested")) 1 10 20
           {| pd_id := 1; pd_sender_id := Some 10; pd_traveler_id := Some 20;
              pd_title := "Documents"; pd_status := Some "requested" |}
           1 2 3 4 5 no_options no_options no_options no_options no_options);
    first [reflexivity | vm_compute; reflexivity].
Defined.

(** ** What the status-options route offers *)

(** X18. For a stored status the route offers exactly the targets that the
    engine's transition check accepts, and fails as that check fails; for
    a missing status it offers nothing. *)
Theorem offered_statuses_are_the_allowed_ones (newStatus : string) :
  (∀ current : string,
     current ≠ "" ->
     match availableStatuses (JString current) with
     | Ok offered =>
         isTransitionAllowed (JString current) newStatus
         = Ok (bool_decide (newStatus ∈ offered))
     | Throw e => isTransitionAllowed (JString current) newStatus = Throw e
     end)
  ∧ (∀ current : jsval,
       truthy current = false -> availableStatuses current = Ok []).
Proof.
  split.
  - intros current Hnonempty.
    unfold availableStatuses, isTransitionAllowed. simpl.
    destruct (String.eqb_spec current ""); [contradiction|]. simpl.
    destruct (get_property ALLOWED_TRANSITIONS current) as [l| |].
    + unfold includes. by rewrite orb_false_r.
    + reflexivity.
    + reflexivity.
  - intros [| |s]; simpl; [done..|]. intros Hfalsy. by rewrite Hfalsy.
Qed.

Lemma offered_statuses_are_the_allowed_ones_witness :
  availableStatuses (JString "arrived") = Ok ["delivered"; "disputed"]
  ∧ isTransitionAllowed (JString "arrived") "delivered" = Ok true
  ∧ availableStatuses JNull = Ok [].
Proof.
  pose proof (offered_statuses_are_the_allowed_ones "delivered") as [Hstored Habsent].
  assert (Hoffered : availableStatuses (JString "arrived")
                     = Ok ["delivered"; "disputed"]) by (vm_compute; reflexivity).
  split; [exact Hoffered|]. split.
  - specialize (Hstored "arrived"). rewrite Hoffered in Hstored.
    rewrite Hstored by discriminate. reflexivity.
  - apply Habsent. reflexivity.
Defined.

(** ** Statistics *)

Lemma status_in_exclusive (p : package_row) :
  (Nat.b2n (status_in ["delivered"] p) + Nat.b2n (status_in ["disputed"] p)
   + Nat.b2n (status_in ["in_transit"; "arrived"] p) ≤ 1)%nat.
Proof.
  unfold status_in. destruct (p_status p) as [s|]; [|simpl; lia].
  repeat case_bool_decide; simpl; try lia;
    repeat match goal with
    | H : _ ∈ _ :: _ |- _ => apply elem_of_cons in H as [H|H]
    | H : _ ∈ [] |- _ => by apply elem_of_nil in H
    end; congruence.
Qed.

Lemma count_status_cons tokens p rows :
  count_status tokens (p :: rows)
  = (Nat.b2n (status_in tokens p) + count_status tokens rows)%nat.
Proof.
  unfold count_status. rewrite filter_cons.
  destruct (status_in tokens p); by case_decide.
Qed.

Lemma count_status_Permutation tokens (rows rows' : list package_row) :
  rows ≡ₚ rows' -> count_status tokens rows = count_status tokens rows'.
Proof. intros Hperm. unfold count_status. by rewrite Hperm. Qed.

(** X19. The three counts of [getTrackingStats] are taken over disjoint sets of
    the user's packages: together they never exceed [total_packages]. *)
Theorem stats_counts_are_disjoint (d : database) (userId : Z) :
  (delivered_packages (getTrackingStats d userId)
   + disputed_packages (getTrackingStats d userId)
   + active_packages (getTrackingStats d userId)
   ≤ total_packages (getTrackingStats d userId))%nat.
Proof.
  unfold getTrackingStats. simpl.
  induction (packages_involving d userId) as [|p rows IH]; [reflexivity|].
  rewrite !count_status_cons. simpl.
  pose proof (status_in_exclusive p). lia.
Qed.

Lemma alter_as_insert (m : gmap Z package_row) k p f :
  m !! k = Some p -> alter f k m = <[k := f p]> (delete k m).
Proof.
  intros Hp. apply map_eq. intros i. rewrite lookup_alter, lookup_insert.
  case_decide; [subst i; by rewrite Hp|]. by rewrite lookup_delete_ne.
Qed.

Lemma rows_of_alter (m : gmap Z package_row) k p f :
  m !! k = Some p ->
  (map_to_list m).*2 ≡ₚ p :: (map_to_list (delete k m)).*2
  ∧ (map_to_list (alter f k m)).*2 ≡ₚ f p :: (map_to_list (delete k m)).*2.
Proof.
  intros Hp. split.
  - rewrite <- (map_to_list_delete m k p Hp). reflexivity.
  - rewrite (alter_as_insert m k p f Hp).
    rewrite map_to_list_insert by apply lookup_delete_eq. reflexivity.
Qed.

Lemma allowed_transition_changes_status d packageId newStatus userId packageData :
  load_and_validate d packageId newStatus userId = Ok packageData ->
  pd_status packageData ≠ Some newStatus.
Proof.
  intros (_ & Hallowed & Hperm)%load_and_validate_Ok Hsame.
  apply hasPermissionToUpdate_token in Hperm as (k & -> & _).
  rewrite Hsame in Hallowed. simpl in Hallowed.
  apply isTransitionAllowed_from_token in Hallowed.
  apply list_elem_of_fmap in Hallowed as (k' & Heq%PACKAGE_STATUS_inj & Hin).
  subst k'. destruct k; simpl in Hin;
    repeat (apply elem_of_cons in Hin as [Hin|Hin]; [discriminate|]);
    by apply elem_of_nil in Hin.
Qed.

(** X20. A successful transition moves one package in the statistics of its
    sender and of its traveler: [total_packages] is as before and the
    count of the packages in the new status has grown by one; so a dispute
    adds one to [disputed_packages] and a confirmed delivery one to
    [delivered_packages]. *)
Theorem transition_moves_one_count (env : environment) (now : Z) (w : world)
    (packageId : Z) (newStatus : string) (userId : Z) (opts : options)
    (w' : world) (r : update_result) (packageData : package_data) (party : Z) :
  updatePackageStatus env now w packageId newStatus userId opts = (w', Ok r) ->
  select_package (db w) packageId = Ok (Some packageData) ->
  pd_sender_id packageData = Some party ∨ pd_traveler_id packageData = Some party ->
  total_packages (getTrackingStats (db w') party)
    = total_packages (getTrackingStats (db w) party)
  ∧ count_status [newStatus] (packages_involving (db w') party)
    = S (count_status [newStatus] (packages_involving (db w) party))
  ∧ (newStatus = PACKAGE_STATUS DISPUTED ->
       disputed_packages (getTrackingStats (db w') party)
       = S (disputed_packages (getTrackingStats (db w) party)))
  ∧ (newStatus = PACKAGE_STATUS DELIVERED ->
       delivered_packages (getTrackingStats (db w') party)
       = S (delivered_packages (getTrackingStats (db w) party))).
Proof.
  intros Hcall Hsel Hparty.
  apply updatePackageStatus_db in Hcall as [[_ [=]] | (pd & Hload & Hdb)].
  pose proof (allowed_transition_changes_status _ _ _ _ _ Hload) as Hchanged.
  apply load_and_validate_Ok in Hload as (Hsel' & _ & _).
  rewrite Hsel in Hsel'. injection Hsel' as <-.
  set (updated_at := CURRENT_TIMESTAMP env (UPDATE_packages newStatus packageId))
    in *.
  apply select_package_Some in Hsel
    as (p & trip_id & t & sender_id & us & Hp & Htrip & Ht & Hsender & Hus & ->).
  simpl in Hparty, Hchanged.
  destruct (rows_of_alter (packages (db w)) packageId p (with_status newStatus updated_at) Hp)
    as [Hrows Hrows'].
  assert (Hinvolved : involves (db w) party p = true).
  { unfold involves. rewrite Htrip. simpl. rewrite Ht, Hsender.
    apply orb_true_iff. destruct Hparty as [Heq|Heq]; [left|right];
      by apply bool_decide_eq_true. }
  assert (Hbefore : packages_involving (db w) party
            ≡ₚ p :: filter (fun q => involves (db w) party q = true)
                      (map_to_list (delete packageId (packages (db w)))).*2).
  { unfold packages_involving. rewrite Hrows.
    by rewrite filter_cons_True by exact Hinvolved. }
  assert (Hafter : packages_involving (db w') party
            ≡ₚ with_status newStatus updated_at p
               :: filter (fun q => involves (db w) party q = true)
                    (map_to_list (delete packageId (packages (db w)))).*2).
  { unfold packages_involving. rewrite Hdb. simpl.
    change (fun q => involves _ party q = true)
      with (fun q => involves (db w) party q = true).
    rewrite Hrows'. by rewrite filter_cons_True by exact Hinvolved. }
  assert (Hcount : ∀ tokens,
            count_status tokens (packages_involving (db w') party)
            = (Nat.b2n (status_in tokens (with_status newStatus updated_at p))
               + count_status tokens
                   (filter (fun q => involves (db w) party q = true)
                      (map_to_list (delete packageId (packages (db w)))).*2))%nat
            ∧ count_status tokens (packages_involving (db w) party)
              = (Nat.b2n (status_in tokens p)
                 + count_status tokens
                     (filter (fun q => involves (db w) party q = true)
                        (map_to_list (delete packageId (packages (db w)))).*2))%nat).
  { intros tokens.
    rewrite (count_status_Permutation tokens _ _ Hafter).
    rewrite (count_status_Permutation tokens _ _ Hbefore).
    by rewrite !count_status_cons. }
  assert (Hnew : status_in [newStatus] (with_status newStatus updated_at p) = true).
  { unfold status_in. simpl. apply bool_decide_eq_true. by apply list_elem_of_singleton. }
  assert (Hold : status_in [newStatus] p = false).
  { unfold status_in. destruct (p_status p) as [s|]; [|done].
    apply bool_decide_eq_false. intros ->%list_elem_of_singleton. by apply Hchanged. }
  assert (Hone : count_status [newStatus] (packages_involving (db w') party)
                 = S (count_status [newStatus] (packages_involving (db w) party))).
  { destruct (Hcount [newStatus]) as [-> ->]. by rewrite Hnew, Hold. }
  split; [|split; [exact Hone|split]].
  - unfold getTrackingStats. simpl. by rewrite Hafter, Hbefore.
  - intros ->. exact Hone.
  - intros ->. exact Hone.
Qed.

Lemma transition_moves_one_count_witness :
  delivered_packages
    (getTrackingStats
       (db (updatePackageStatus quiet 100 (sample_world (Some "arrived")) 1
              "delivered" 10 no_options).1) 20)
  = S (delivered_packages (getTrackingStats (sample_database (Some "arrived")) 20))
  ∧ delivered_packages (getTrackingStats (sample_database (Some "arrived")) 20)
    = 0%nat.
Proof.
  split; [|vm_compute; reflexivity].
  destruct (updatePackageStatus quiet 100 (sample_world (Some "arrived")) 1
              "delivered" 10 no_options) as [w' [r|e]] eqn:Hcall;
    [|vm_compute in Hcall; discriminate Hcall].
  apply (transition_moves_one_count quiet 100 (sample_world (Some "arrived")) 1
           "delivered" 10 no_options w' r
           {| pd_id := 1; pd_sender_id := Some 10; pd_traveler_id := Some 20;
              pd_title := "Documents"; pd_status := Some "arrived" |} 20 Hcall);
    first [reflexivity | by right | vm_compute; reflexivity].
Defined.

(** ** Pages of active packages *)




